(** * Harmony: service selection and backend callbacks

    A shallow embedding of two pieces of the Harmony code base:

    - the operation router ([forOperation] and its helpers), which picks a
      backend service configuration for a data operation and falls back to
      the built-in no-op service when no configured service fits;
    - the backend callback handler ([responseHandler], [updateJobFields]) of
      [app/backends/service-response.ts], which turns a callback of a backend
      into an update of a persisted job.

    JavaScript values are embedded as follows.  A property that may be
    [undefined] is an [option]; a string is tested for truthiness with
    [truthy] (the empty string is falsy); an exception is the [Throw] case of
    [Result]; an object that the code mutates in place is threaded through
    the functions explicitly. *)

From Stdlib Require Import ZArith Ascii String List Bool.
From stdpp Require Import base option gmap strings.
Import ListNotations.

Local Open Scope string_scope.
Local Open Scope list_scope.

(** ** JavaScript preliminaries *)

Module JS.

(** [!!v] for a value that is a string or [undefined]. *)
Definition truthy (v : option string) : bool :=
  match v with
  | Some (String _ _) => true
  | _ => false
  end.

(** [s.includes(needle)]. *)
Fixpoint includes (s needle : string) : bool :=
  String.prefix needle s ||
  match s with
  | EmptyString => false
  | String _ s' => includes s' needle
  end.

(** [String(array)] for an array of strings: the elements joined by commas. *)
Definition join_commas (l : list string) : string := String.concat "," l.

(** The double quote character. *)
Definition dquote : string := String (ascii_of_nat 34) EmptyString.

(** Exceptions, by class and message.  [OtherError] is any error of a class
    that the code does not tell apart.  [exn_code] is the [code] property
    that the error carries as a property of its own, where it has one and it
    is a number; a code that is not a number is left out. *)
Inductive ErrorClass :=
| UnsupportedOperation
| NotFoundError
| TypeError
| RequestValidationError
| ServerError
| OtherError.

Record Exn := MkError {
  exn_class : ErrorClass;
  exn_message : string;
  exn_code : option Z
}.

(** An error with no [code] property of its own, as [new ErrorClass(message)]
    makes it. *)
Abbreviation MkExn c m := (MkError c m None).

Inductive Result (A : Type) :=
| Ok (a : A)
| Throw (e : Exn).
Arguments Ok {A} a.
Arguments Throw {A} e.

#[global] Instance result_ret : MRet Result := fun _ a => Ok a.
#[global] Instance result_bind : MBind Result := fun _ _ k r =>
  match r with
  | Ok a => k a
  | Throw e => Throw e
  end.

End JS.

(** ** The operation router

    The functions of the router module, in the order of the source.  The
    descriptor list [configs] is the argument of [forOperation]; loading
    [services.yml] into the module variable [serviceConfigs], which is its
    default value, is outside this development. *)

(** [isMimeTypeAccepted(mimeType, acceptPattern)] of
    [util/content-negotiation] is imported by the router and consumed as a
    pure function. *)
Class MimeNegotiation := isMimeTypeAccepted : string -> string -> bool.

Module Router.
Import JS.

Record Source := MkSource {
  collection : string;
  variables : option (list string)
}.

Record Operation := MkOperation {
  sources : list Source;
  outputFormat : option string
}.

Record RoutingContext := MkContext {
  requestedMimeTypes : option (list string)
}.

(** A service configuration of [services.yml].  [output_formats] and
    [subsetting_variable] hold what
    [getIn(config, 'capabilities.output_formats', [])] and
    [getIn(config, 'capabilities.subsetting.variable', false)] return, so a
    missing property reads as the empty list and as [false].  [message] is
    the property that [forOperation] sets on the no-op service. *)
Record ServiceConfig := MkConfig {
  type_name : string;
  collections : list string;
  output_formats : list string;
  subsetting_variable : bool;
  message : option string
}.

(** The constructors that [serviceTypesToServiceClasses[name]] can give: the
    three service classes, and [Object], which every object literal inherits
    under the name [constructor]. *)
Inductive ServiceClass := LocalDockerService | HttpService | NoOpService | ObjectConstructor.

(** The own properties of the object [serviceTypesToServiceClasses]. *)
Definition serviceTypesToServiceClasses : gmap string ServiceClass :=
  {[ "docker" := LocalDockerService;
     "http" := HttpService;
     "noOp" := NoOpService ]}.

(** The properties that the object inherits from [Object.prototype], other
    than [constructor].  The value of each is truthy and is not a
    constructor: the methods of the prototype cannot be constructed, and
    [__proto__] reads as the prototype object. *)
Definition inheritedNonConstructors : list string :=
  ["__defineGetter__"; "__defineSetter__"; "hasOwnProperty"; "__lookupGetter__";
   "__lookupSetter__"; "isPrototypeOf"; "propertyIsEnumerable"; "toString";
   "valueOf"; "__proto__"; "toLocaleString"].

(** What [serviceTypesToServiceClasses[name]] reads, where it is not
    undefined: a constructor, or a value that [new] refuses. *)
Inductive Property :=
| Constructor (ServiceClass : ServiceClass)
| NotConstructor.

(** [serviceTypesToServiceClasses[name]]: an own property first, then the
    properties of [Object.prototype]. *)
Definition getProperty (name : string) : option Property :=
  match serviceTypesToServiceClasses !! name with
  | Some ServiceClass => Some (Constructor ServiceClass)
  | None =>
    if String.eqb name "constructor" then Some (Constructor ObjectConstructor)
    else if existsb (String.eqb name) inheritedNonConstructors then Some NotConstructor
    else None
  end.

(** The module-level state that [forOperation] touches: the [message]
    property of the one [noOpService] object. *)
Record ModuleState := MkModule {
  noOpService_message : option string
}.

(** The [noOpService] object as it reads in module state [st].  It has no
    [collections] property; it is never matched against a collection. *)
Definition noOpService (st : ModuleState) : ServiceConfig :=
  {| type_name := "noOp";
     collections := [];
     output_formats := ["application/json"];
     subsetting_variable := false;
     message := noOpService_message st |}.

(** The object that the variable [service] of [forOperation] points to: one
    of the given configurations, or the shared [noOpService]. *)
Inductive ServiceRef :=
| ConfigRef (c : ServiceConfig)
| NoOpRef.

Definition deref (st : ModuleState) (r : ServiceRef) : ServiceConfig :=
  match r with
  | ConfigRef c => c
  | NoOpRef => noOpService st
  end.

(** What [new ServiceClass(serviceConfig, operation)] is given.  For the
    class [ObjectConstructor] the expression is the configuration itself:
    [new Object(value)] returns [value] when it is an object. *)
Record Service := MkService {
  service_class : ServiceClass;
  service_config : ServiceRef;
  service_operation : Operation
}.

Definition unsupported (m : string) : Exn := MkExn UnsupportedOperation m.

Definition set_outputFormat (f : option string) (op : Operation) : Operation :=
  {| sources := sources op; outputFormat := f |}.

Section WithMimeNegotiation.
Context `{MimeNegotiation}.

Definition buildService (st : ModuleState) (service : option ServiceRef)
    (operation : Operation) : Result Service :=
  match service with
  | None => Throw (MkExn TypeError "Cannot read properties of undefined (reading 'type')")
  | Some r =>
    match getProperty (type_name (deref st r)) with
    | Some (Constructor ServiceClass) => Ok (MkService ServiceClass r operation)
    | Some NotConstructor => Throw (MkExn TypeError "ServiceClass is not a constructor")
    | None =>
      Throw (MkExn NotFoundError
        ("Could not find an appropriate service class for type "
           +:+ dquote +:+ "[object Object]" +:+ dquote))
    end
  end.

Definition isCollectionMatch (operation : Operation) (serviceConfig : ServiceConfig) : bool :=
  forallb (fun source =>
             existsb (String.eqb (collection source)) (collections serviceConfig))
          (sources operation).

Definition selectServicesForFormat (format : string) (configs : list ServiceConfig)
    : list ServiceConfig :=
  List.filter (fun config =>
                 let supportedFormats := output_formats config in
                 truthy (List.find (fun f => isMimeTypeAccepted f format) supportedFormats))
              configs.

(** The [for ... of] loop of [selectFormat]; [outputFormat] is the loop
    variable of that name, falsy on entry. *)
Fixpoint selectFormat_loop (mimeTypes : list string) (configs : list ServiceConfig)
    (outputFormat : option string) : option string :=
  match mimeTypes with
  | [] => outputFormat
  | mimeType :: rest =>
    let services := selectServicesForFormat mimeType configs in
    let outputFormat :=
      match services with
      | service0 :: _ =>
        List.find (fun f => isMimeTypeAccepted f mimeType) (output_formats service0)
      | [] => outputFormat
      end in
    if truthy outputFormat then outputFormat
    else selectFormat_loop rest configs outputFormat
  end.

(** [selectFormat].  With a falsy [operation.outputFormat] the condition
    reads [context.requestedMimeTypes], which throws on a missing context. *)
Definition selectFormat (operation : Operation) (context : option RoutingContext)
    (configs : list ServiceConfig) : Result (option string) :=
  let outputFormat := outputFormat operation in
  if truthy outputFormat then Ok outputFormat
  else
    match context with
    | None => Throw (MkExn TypeError "Cannot read properties of undefined (reading 'requestedMimeTypes')")
    | Some ctx =>
      match requestedMimeTypes ctx with
      | Some (m :: ms) => Ok (selectFormat_loop (m :: ms) configs outputFormat)
      | _ => Ok outputFormat
      end
    end.

Definition requiresVariableSubsetting (operation : Operation) : bool :=
  let varSources :=
    List.filter (fun s => match variables s with
                          | Some (_ :: _) => true
                          | _ => false
                          end) (sources operation) in
  (0 <? length varSources)%nat.

Definition supportsVariableSubsetting (configs : list ServiceConfig) : list ServiceConfig :=
  List.filter subsetting_variable configs.

Definition filterCollectionMatches (operation : Operation) (context : option RoutingContext)
    (configs : list ServiceConfig) : Result (list ServiceConfig) :=
  let matches := List.filter (isCollectionMatch operation) configs in
  match matches with
  | [] => Throw (unsupported "no services are configured for the collection")
  | _ => Ok matches
  end.

Definition filterVariableSubsettingMatches (operation : Operation)
    (context : option RoutingContext) (configs : list ServiceConfig)
    : Result (list ServiceConfig) :=
  let variableSubsettingNeeded := requiresVariableSubsetting operation in
  let matches := if variableSubsettingNeeded then supportsVariableSubsetting configs
                 else configs in
  match matches with
  | [] => Throw (unsupported
            "none of the services configured for the collection support variable subsetting")
  | _ => Ok matches
  end.

(** [context && context.requestedMimeTypes && context.requestedMimeTypes.length > 0]. *)
Definition hasRequestedMimeTypes (context : option RoutingContext) : bool :=
  match context with
  | Some ctx =>
    match requestedMimeTypes ctx with
    | Some (_ :: _) => true
    | _ => false
    end
  | None => false
  end.

(** The text of [${operation.outputFormat || context.requestedMimeTypes}]. *)
Definition requestedFormatsText (operation : Operation) (context : option RoutingContext)
    : Result string :=
  match outputFormat operation with
  | Some (String a s) => Ok (String a s)
  | _ =>
    match context with
    | None => Throw (MkExn TypeError "Cannot read properties of undefined (reading 'requestedMimeTypes')")
    | Some ctx =>
      match requestedMimeTypes ctx with
      | Some l => Ok (join_commas l)
      | None => Ok "undefined"
      end
    end
  end.

Definition reformattingMessage (formats : string) : string :=
  "none of the services configured for the collection support "
  +:+ "reformatting to any of the requested formats "
  +:+ "[" +:+ formats +:+ "]".

Definition combinationMessage (formats : string) : string :=
  "none of the services support the combination of both variable subsetting "
  +:+ "and any of the requested formats "
  +:+ "[" +:+ formats +:+ "]".

(** [filterOutputFormatMatches] returns the operation next to its result,
    since it assigns [operation.outputFormat] before it may throw. *)
Definition filterOutputFormatMatches (operation : Operation)
    (context : option RoutingContext) (configs : list ServiceConfig)
    : Operation * Result (list ServiceConfig) :=
  let finish (operation : Operation) (services : list ServiceConfig) :=
    match services with
    | [] => (operation,
             formats ← requestedFormatsText operation context;
             Throw (unsupported (reformattingMessage formats)))
    | _ => (operation, Ok services)
    end in
  if truthy (outputFormat operation) || hasRequestedMimeTypes context then
    match selectFormat operation context configs with
    | Throw e => (operation, Throw e)
    | Ok outputFormat =>
      if truthy outputFormat
      then finish (set_outputFormat outputFormat operation)
                  (selectServicesForFormat (default EmptyString outputFormat) configs)
      else finish operation []
    end
  else finish operation configs.

Definition unsupportedCombinationMessage (operation : Operation)
    (context : option RoutingContext) (configs : list ServiceConfig)
    (originalReason : string) : Result string :=
  let reason := originalReason in
  if includes originalReason "reformatting to any of the requested formats" then
    if requiresVariableSubsetting operation then
      matches ← filterCollectionMatches operation context configs;
      outputFormat ← selectFormat operation context matches;
      if truthy outputFormat then
        let servicesWithoutVarSubsetting :=
          selectServicesForFormat (default EmptyString outputFormat) matches in
        match servicesWithoutVarSubsetting with
        | _ :: _ =>
          formats ← requestedFormatsText operation context;
          Ok (combinationMessage formats)
        | [] => Ok reason
        end
      else Ok reason
    else Ok reason
  else Ok reason.

(** The body of the [try] block of [forOperation]: the three stages and
    [[service] = formatMatches]. *)
Definition forOperation_try (operation : Operation) (context : option RoutingContext)
    (configs : list ServiceConfig) : Operation * Result (option ServiceRef) :=
  match filterCollectionMatches operation context configs with
  | Throw e => (operation, Throw e)
  | Ok collectionMatches =>
    match filterVariableSubsettingMatches operation context collectionMatches with
    | Throw e => (operation, Throw e)
    | Ok varSubsetMatches =>
      match filterOutputFormatMatches operation context varSubsetMatches with
      | (operation, Throw e) => (operation, Throw e)
      | (operation, Ok formatMatches) =>
        (operation, Ok (ConfigRef <$> head formatMatches))
      end
    end
  end.

(** [forOperation], threading the module state and the operation. *)
Definition forOperation (st : ModuleState) (operation : Operation)
    (context : option RoutingContext) (configs : list ServiceConfig)
    : ModuleState * Operation * Result Service :=
  match forOperation_try operation context configs with
  | (operation, Ok service) => (st, operation, buildService st service operation)
  | (operation, Throw e) =>
    match exn_class e with
    | UnsupportedOperation =>
      match unsupportedCombinationMessage operation context configs (exn_message e) with
      | Throw e' => (st, operation, Throw e')
      | Ok message =>
        let st := {| noOpService_message := Some message |} in
        (st, operation, buildService st (Some NoOpRef) operation)
      end
    | _ => (st, operation, Throw e)
    end
  end.

End WithMimeNegotiation.

End Router.

(** ** MIME negotiation, concretely *)

Module Mime.

(** Modelled from the spec: [isMimeTypeAccepted] of
    [util/content-negotiation], which the router imports and whose source is
    not at hand.  The spec describes it as wildcard-aware acceptance of a
    candidate format by a requested pattern: [*/*] accepts every format,
    [type/*] accepts the formats of that type, and any other pattern accepts
    the format equal to it. *)
Definition wildcardAccepted (mimeType pattern : string) : bool :=
  if String.eqb pattern "*/*" then true
  else
    let n := String.length pattern in
    if (2 <=? n)%nat && String.eqb (String.substring (n - 2) 2 pattern) "/*"
    then String.prefix (String.substring 0 (n - 1) pattern) mimeType
    else String.eqb mimeType pattern.

Definition wildcard : MimeNegotiation := wildcardAccepted.

End Mime.

(** ** JavaScript numbers read from strings

    Strings are sequences of code units below 256.  [None] stands for [NaN]. *)

Module JSNumber.

Definition isDigit (c : ascii) : bool :=
  let n := nat_of_ascii c in (48 <=? n)%nat && (n <=? 57)%nat.

Definition digitValue (c : ascii) : Z := Z.of_nat (nat_of_ascii c) - 48.

(** White space and line terminators (tab, LF, VT, FF, CR, space, NBSP). *)
Definition isWhiteSpace (c : ascii) : bool :=
  let n := nat_of_ascii c in
  ((9 <=? n)%nat && (n <=? 13)%nat) || (n =? 32)%nat || (n =? 160)%nat.

Fixpoint trimStart (s : string) : string :=
  match s with
  | String c s' => if isWhiteSpace c then trimStart s' else s
  | EmptyString => s
  end.

(** [s] without white space at its end. *)
Fixpoint trimEnd (s : string) : string :=
  match s with
  | EmptyString => EmptyString
  | String c s' =>
    match trimEnd s' with
    | EmptyString => if isWhiteSpace c then EmptyString else String c EmptyString
    | t => String c t
    end
  end.

(** The digits at the start of [s]: how many, their decimal value (from
    [acc]), and the rest of [s]. *)
Fixpoint digits (s : string) (count : nat) (acc : Z) : nat * Z * string :=
  match s with
  | String c s' =>
    if isDigit c then digits s' (S count) (10 * acc + digitValue c)
    else (count, acc, s)
  | EmptyString => (count, acc, s)
  end.

Definition isSign (c : ascii) : bool :=
  (nat_of_ascii c =? 43)%nat || (nat_of_ascii c =? 45)%nat.

Definition dropSign (s : string) : string :=
  match s with
  | String c s' => if isSign c then s' else s
  | EmptyString => s
  end.

(** [ExponentPart], optional, up to the end of the string. *)
Definition exponentOpt (s : string) : bool :=
  match s with
  | EmptyString => true
  | String c s' =>
    if (nat_of_ascii c =? 101)%nat || (nat_of_ascii c =? 69)%nat then
      match digits (dropSign s') 0 0 with
      | (S _, _, EmptyString) => true
      | _ => false
      end
    else false
  end.

(** [StrUnsignedDecimalLiteral], up to the end of the string. *)
Definition unsignedDecimal (s : string) : bool :=
  if String.eqb s "Infinity" then true
  else
    match digits s 0 0 with
    | (n1, _, String "." s') =>
      match digits s' 0 0 with
      | (n2, _, rest) => ((0 <? n1)%nat || (0 <? n2)%nat) && exponentOpt rest
      end
    | (n1, _, rest) => (0 <? n1)%nat && exponentOpt rest
    end.

Definition allOf (p : ascii -> bool) (s : string) : bool :=
  forallb p (list_ascii_of_string s).

Definition isHexDigit (c : ascii) : bool :=
  let n := nat_of_ascii c in
  isDigit c || ((65 <=? n)%nat && (n <=? 70)%nat) || ((97 <=? n)%nat && (n <=? 102)%nat).
Definition isOctalDigit (c : ascii) : bool :=
  let n := nat_of_ascii c in (48 <=? n)%nat && (n <=? 55)%nat.
Definition isBinaryDigit (c : ascii) : bool :=
  let n := nat_of_ascii c in (48 <=? n)%nat && (n <=? 49)%nat.

(** [NonDecimalIntegerLiteral]: [0x], [0o] or [0b] and at least one digit. *)
Definition nonDecimalInteger (s : string) : bool :=
  match s with
  | String "0" (String k (String d ds)) =>
    let n := nat_of_ascii k in
    if (n =? 120)%nat || (n =? 88)%nat then allOf isHexDigit (String d ds)
    else if (n =? 111)%nat || (n =? 79)%nat then allOf isOctalDigit (String d ds)
    else if (n =? 98)%nat || (n =? 66)%nat then allOf isBinaryDigit (String d ds)
    else false
  | _ => false
  end.

(** [Number.isNaN(+s)]: [+s] is [NaN] unless [s], trimmed, is empty or a
    [StringNumericLiteral]. *)
Definition unaryPlus_isNaN (s : string) : bool :=
  let t := trimEnd (trimStart s) in
  match t with
  | EmptyString => false
  | _ => negb (nonDecimalInteger t || unsignedDecimal (dropSign t))
  end.

(** [parseInt(s, 10)]: the value of the decimal digits that follow the
    leading white space and an optional sign, [NaN] when there are none.
    The value is kept exact (a double rounds it above 2^53). *)
Definition parseInt10 (s : string) : option Z :=
  let t := trimStart s in
  let negative := match t with
                  | String c _ => (nat_of_ascii c =? 45)%nat
                  | EmptyString => false
                  end in
  match digits (dropSign t) 0 0 with
  | (S _, v, _) => Some (if negative then - v else v)%Z
  | (O, _, _) => None
  end.

End JSNumber.

(** The parts of the JavaScript runtime whose results the callback code
    stores without inspecting them further: floating-point parsing and
    dates.  [None] stands for [NaN]; a date is its time value in
    milliseconds. *)
Class JSRuntime := {
  float : Type;
  parseFloat : string -> option float;
  Date_parse : string -> option Z;
  Date_toISOString : Z -> string
}.

(** ** Jobs

    The job model ([models/job]) is imported by the callback code; its source
    is not at hand, and the operations below follow sections 3 and 4.4 of the
    specification.  Time stamps are left out. *)

Module Job.
Import JS.

Inductive JobStatus := accepted | running | successful | failed | canceled | paused.

Section WithRuntime.
Context `{JSRuntime}.

Record JobLink := MkLink {
  link_href : option string;
  link_type : option string;
  link_rel : option string;
  link_title : option string;
  link_bbox : option (list float);
  link_temporal : option (string * string)
}.

Record Job := MkJob {
  jobID : string;
  status : JobStatus;
  message : option string;
  progress : option Z;
  links : list JobLink;
  isAsync : bool
}.

Definition set_links (l : list JobLink) (job : Job) : Job :=
  {| jobID := jobID job; status := status job; message := message job;
     progress := progress job; links := l; isAsync := isAsync job |}.

Definition set_progress (p : option Z) (job : Job) : Job :=
  {| jobID := jobID job; status := status job; message := message job;
     progress := p; links := links job; isAsync := isAsync job |}.

Definition set_status (s : JobStatus) (m : option string) (job : Job) : Job :=
  {| jobID := jobID job; status := s; message := m;
     progress := progress job; links := links job; isAsync := isAsync job |}.

(** Modelled from the spec: the enumeration of job statuses, read from the
    string that a callback sends. *)
Definition statusOfString (s : string) : option JobStatus :=
  if String.eqb s "accepted" then Some accepted
  else if String.eqb s "running" then Some running
  else if String.eqb s "successful" then Some successful
  else if String.eqb s "failed" then Some failed
  else if String.eqb s "canceled" then Some canceled
  else if String.eqb s "paused" then Some paused
  else None.

(** Modelled from the spec: [job.addLink(link)] appends the link to the
    ordered sequence [links]. *)
Definition addLink (job : Job) (link : JobLink) : Job :=
  set_links (links job ++ [link]) job.

(** Modelled from the spec: [job.fail(message)] transitions to [failed] and
    records the message. *)
Definition fail (job : Job) (msg : string) : Job :=
  set_status failed (Some msg) job.

(** Modelled from the spec: [job.updateStatus(status)] transitions to the
    named status, which is validated against the enumeration; a bad status
    value is a validation failure. *)
Definition updateStatus (job : Job) (s : string) : Result Job :=
  match statusOfString s with
  | Some st => Ok (set_status st (message job) job)
  | None => Throw (MkExn TypeError "Job record is invalid: invalid status")
  end.

(** Modelled from the spec: [job.succeed()] transitions to [successful]. *)
Definition succeed (job : Job) : Job :=
  set_status successful (message job) job.

(** Modelled from the spec: [job.getRelatedLinks(rel)], the links of the job
    with relation [rel], in order. *)
Definition getRelatedLinks (job : Job) (rel : string) : list JobLink :=
  List.filter (fun link => match link_rel link with
                           | Some r => String.eqb r rel
                           | None => false
                           end) (links job).

(** Modelled from the spec: the terminal statuses. *)
Definition isComplete (job : Job) : bool :=
  match status job with
  | successful | failed | canceled => true
  | _ => false
  end.

End WithRuntime.

End Job.

(** ** The callback handler ([app/backends/service-response.ts]) *)

Module ServiceResponse.
Import JS Job.

Record CallbackQueryItem := MkItem {
  href : option string;
  type : option string;
  rel : option string;
  title : option string;
  temporal : option string;
  bbox : option string
}.

Record CallbackQuery := MkQuery {
  item : option CallbackQueryItem;
  error : option string;
  redirect : option string;
  status : option string;
  progress : option string
}.

(** [s.split(',')]: never empty, one more part than there are commas. *)
Fixpoint split_commas (s : string) : list string :=
  match s with
  | EmptyString => [EmptyString]
  | String c s' =>
    if (nat_of_ascii c =? 44)%nat then EmptyString :: split_commas s'
    else
      match split_commas s' with
      | part :: parts => String c part :: parts
      | [] => [String c EmptyString]
      end
  end.

(** The longest run of characters other than the double quote at the start of
    [s], and what follows it. *)
Fixpoint spanNoQuote (s : string) : string * string :=
  match s with
  | String c s' =>
    if (nat_of_ascii c =? 34)%nat then (EmptyString, s)
    else let (run, rest) := spanNoQuote s' in (String c run, rest)
  | EmptyString => (EmptyString, EmptyString)
  end.

Definition filenameKey : string := "filename=" +:+ dquote.

(** A match, at the start of [s], of the regular expression of the handler
    (the key, a double quote, one character or more other than the double
    quote, a double quote): its group. *)
Definition filenameAt (s : string) : option string :=
  if String.prefix filenameKey s then
    match spanNoQuote (String.substring (String.length filenameKey)
                                        (String.length s) s) with
    | (String c run, String _ _) => Some (String c run)
    | _ => None
    end
  else None.

(** [header.match(...)] with that expression: the group of the leftmost
    match. *)
Fixpoint filenameMatch (s : string) : option string :=
  match filenameAt s with
  | Some name => Some name
  | None =>
    match s with
    | String _ s' => filenameMatch s'
    | EmptyString => None
    end
  end.

(** Modelled from the spec: the HTTP status code that the error classes of
    [util/errors] carry in their [code] property; a validation failure is
    surfaced as 400 and a server error as 500.  Native errors carry none. *)
Definition errorCode (c : ErrorClass) : option Z :=
  match c with
  | RequestValidationError => Some 400%Z
  | ServerError => Some 500%Z
  | NotFoundError => Some 404%Z
  | _ => None
  end.

(** [e.code]: the code that the error carries itself, else the one that its
    class gives it. *)
Definition codeOf (e : Exn) : option Z :=
  match exn_code e with
  | Some c => Some c
  | None => errorCode (exn_class e)
  end.

(** [e.code || (e instanceof TypeError ? 400 : 500)]: a code that is 0 is
    falsy. *)
Definition statusOfError (e : Exn) : Z :=
  let byClass := match exn_class e with
                 | TypeError => 400%Z
                 | _ => 500%Z
                 end in
  match codeOf e with
  | Some c => if Z.eqb c 0 then byClass else c
  | None => byClass
  end.

(** What the handler logs.  [LogComplete] is the record of a completed job,
    with its number of links of relation [data]. *)
Inductive LogEntry :=
| LogError (msg : string)
| LogInfo (msg : string)
| LogComplete (numOutputs : nat).

Section WithRuntime.
Context `{JSRuntime}.

(** All [Some], or nothing. *)
Fixpoint allSome {A} (l : list (option A)) : option (list A) :=
  match l with
  | [] => Some []
  | Some a :: l' => cons a <$> allSome l'
  | None :: _ => None
  end.

(** Lines 46 to 62 of [updateJobFields]: the link built from a callback
    item, before [job.addLink]. *)
Definition linkOfItem (item : CallbackQueryItem) : Result JobLink :=
  bbox' ←
    (if truthy (bbox item) then
       let bbox := parseFloat <$> split_commas (default EmptyString (bbox item)) in
       match allSome bbox with
       | Some [w; s; e; n] => Ok (Some [w; s; e; n])
       | _ => Throw (MkExn TypeError
           "Unrecognized bounding box format.  Must be 4 comma-separated floats as West,South,East,North")
       end
     else Ok None);
  temporal' ←
    (if truthy (temporal item) then
       let temporal := Date_parse <$> split_commas (default EmptyString (temporal item)) in
       match allSome temporal with
       | Some [t1; t2] => Ok (Some (Date_toISOString t1, Date_toISOString t2))
       | _ => Throw (MkExn TypeError
           "Unrecognized temporal format.  Must be 2 RFC-3339 dates with optional fractional seconds as Start,End")
       end
     else Ok None);
  Ok {| link_href := href item;
        link_type := type item;
        link_rel := if truthy (rel item) then rel item else Some "data";
        link_title := title item;
        link_bbox := bbox';
        link_temporal := temporal' |}.

(** The body of the [try] block of [updateJobFields].  The job is returned
    next to the result: it is updated in place up to the point of a throw. *)
Definition updateJobFields_try (job : Job) (query : CallbackQuery) : Job * Result unit :=
  let afterItem :=
    match item query with
    | Some item =>
      match linkOfItem item with
      | Ok link => (addLink job link, Ok ())
      | Throw e => (job, Throw e)
      end
    | None => (job, Ok ())
    end in
  match afterItem with
  | (job, Throw e) => (job, Throw e)
  | (job, Ok _) =>
    let afterProgress :=
      match progress query with
      | Some (String c p) =>
        if JSNumber.unaryPlus_isNaN (String c p)
        then (job, Throw (MkExn TypeError
               ("Job record is invalid: [" +:+ dquote
                +:+ "Job progress must be between 0 and 100" +:+ dquote +:+ "]")))
        else (set_progress (JSNumber.parseInt10 (String c p)) job, Ok ())
      | _ => (job, Ok ())
      end in
    match afterProgress with
    | (job, Throw e) => (job, Throw e)
    | (job, Ok _) =>
      match error query, status query, redirect query with
      | Some (String c e), _, _ => (fail job (String c e), Ok ())
      | _, Some (String c s), _ =>
        match updateStatus job (String c s) with
        | Ok job => (job, Ok ())
        | Throw e => (job, Throw e)
        end
      | _, _, Some (String c r) =>
        let job := addLink job {| link_href := Some (String c r);
                                  link_type := None;
                                  link_rel := Some "data";
                                  link_title := None;
                                  link_bbox := None;
                                  link_temporal := None |} in
        (succeed job, Ok ())
      | _, _, _ => (job, Ok ())
      end
    end
  end.

(** [updateJobFields]: a [TypeError] is rethrown as a
    [RequestValidationError], anything else as a [ServerError], after the
    error is logged. *)
Definition updateJobFields (logger : list LogEntry) (job : Job) (query : CallbackQuery)
    : list LogEntry * Job * Result unit :=
  match updateJobFields_try job query with
  | (job, Ok _) => (logger, job, Ok ())
  | (job, Throw e) =>
    let ErrorClass := match exn_class e with
                      | TypeError => RequestValidationError
                      | _ => ServerError
                      end in
    (logger ++ [LogError (exn_message e)], job, Throw (MkExn ErrorClass (exn_message e)))
  end.

(** *** The handler and its surroundings *)

Record Headers := MkHeaders {
  content_length : option string;
  content_type : option string;
  content_disposition : option string
}.

Record Request := MkRequest {
  requestId : string;
  query : CallbackQuery;
  headers : Headers
}.

Inductive Body :=
| JsonBody (code : Z) (message : string)
| TextBody (text : string).

Record Response := MkResponse {
  res_status : option Z;
  res_body : option Body
}.

(** A file written to the object store by [store.upload]. *)
Record Upload := MkUpload {
  upload_href : string;
  upload_length : string;
  upload_type : option string
}.

Inductive TrxState := TrxOpen | TrxCommitted | TrxRolledBack.

(** What the handler acts on: the persisted jobs by request id, the object
    store, the log, and the transaction it opens with its pending writes. *)
Record World := MkWorld {
  jobs : gmap string Job;
  objectStore : list Upload;
  logger : list LogEntry;
  trx : TrxState;
  trx_writes : gmap string Job
}.

(** The collaborators that may fail: the upload to the object store
    ([objectStoreForProtocol] and [store.upload]), [job.save] and
    [trx.commit].  [None] is success; an error is of any class, with any
    message and any code. *)
Record Collaborators := MkCollaborators {
  upload_error : Upload -> option Exn;
  save_error : Job -> option Exn;
  commit_error : option Exn
}.

Definition log (e : LogEntry) (w : World) : World :=
  {| jobs := jobs w; objectStore := objectStore w; logger := logger w ++ [e];
     trx := trx w; trx_writes := trx_writes w |}.

Definition set_logger (l : list LogEntry) (w : World) : World :=
  {| jobs := jobs w; objectStore := objectStore w; logger := l;
     trx := trx w; trx_writes := trx_writes w |}.

(** [db.transaction()]. *)
Definition transaction (w : World) : World :=
  {| jobs := jobs w; objectStore := objectStore w; logger := logger w;
     trx := TrxOpen; trx_writes := ∅ |}.

(** [trx.rollback()]: the pending writes are dropped. *)
Definition rollback (w : World) : World :=
  {| jobs := jobs w; objectStore := objectStore w; logger := logger w;
     trx := TrxRolledBack; trx_writes := ∅ |}.

(** [trx.commit()]: the pending writes reach the persisted jobs. *)
Definition commit (w : World) : World :=
  {| jobs := trx_writes w ∪ jobs w; objectStore := objectStore w; logger := logger w;
     trx := TrxCommitted; trx_writes := ∅ |}.

(** Modelled from the spec: [job.save(trx)] persists the job within the
    transaction, as a pending write under its request id. *)
Definition save (requestId : string) (job : Job) (w : World) : World :=
  {| jobs := jobs w; objectStore := objectStore w; logger := logger w;
     trx := trx w; trx_writes := <[requestId := job]> (trx_writes w) |}.

Definition upload (u : Upload) (w : World) : World :=
  {| jobs := jobs w; objectStore := objectStore w ++ [u]; logger := logger w;
     trx := trx w; trx_writes := trx_writes w |}.

(** Modelled from the spec: [Job.byRequestId(trx, requestId)] loads the job
    with that request id, if there is one. *)
Definition byRequestId (w : World) (requestId : string) : option Job :=
  jobs w !! requestId.

(** The condition under which the body of the callback is a file result. *)
Definition hasFileBody (req : Request) : bool :=
  negb (truthy (item (query req) ≫= href))
  && negb (truthy (error (query req)))
  && truthy (content_length (headers req))
  && negb (String.eqb (default EmptyString (content_length (headers req))) "0").

(** [stagingLocation + filename], where [stagingLocation] may be undefined. *)
Definition plus (stagingLocation : option string) (filename : string) : string :=
  default "undefined" stagingLocation +:+ filename.

(** [_.merge({}, query, queryOverrides)]: a property of the overrides wins
    where it is defined, and the two items are merged property by property. *)
Definition mergeItem (a b : CallbackQueryItem) : CallbackQueryItem :=
  {| href := from_option Some (href a) (href b);
     type := from_option Some (type a) (type b);
     rel := from_option Some (rel a) (rel b);
     title := from_option Some (title a) (title b);
     temporal := from_option Some (temporal a) (temporal b);
     bbox := from_option Some (bbox a) (bbox b) |}.

Definition merge (query queryOverrides : CallbackQuery) : CallbackQuery :=
  {| item := match item query, item queryOverrides with
             | Some a, Some b => Some (mergeItem a b)
             | a, None => a
             | None, b => b
             end;
     error := from_option Some (error query) (error queryOverrides);
     redirect := from_option Some (redirect query) (redirect queryOverrides);
     status := from_option Some (status query) (status queryOverrides);
     progress := from_option Some (progress query) (progress queryOverrides) |}.

Definition noOverrides : CallbackQuery :=
  {| item := None; error := None; redirect := None; status := None; progress := None |}.

(** Lines 127 to 129: the type of the staged item, from the [content-type]
    header. *)
Definition bodyItemType (req : Request) : option string :=
  match content_type (headers req) with
  | Some (String c t) =>
    if String.eqb (String c t) "application/x-www-form-urlencoded" then None
    else Some (String c t)
  | _ => None
  end.

(** Lines 130 to 136: the file name, from the [content-disposition] header
    or else from the title of the item. *)
Definition bodyFilename (req : Request) : option string :=
  let filename := item (query req) ≫= title in
  match content_disposition (headers req) with
  | Some (String c d) =>
    match filenameMatch (String c d) with
    | Some name => Some name
    | None => filename
    end
  | _ => filename
  end.

(** Lines 120 to 147: the file body is staged and the overrides computed. *)
Definition stageBody (env : Collaborators) (job : Job) (req : Request) (w : World)
    : World * Result CallbackQuery :=
  match getRelatedLinks job "s3-access" with
  | [] => (w, Throw (MkExn TypeError "Cannot read properties of undefined (reading 'href')"))
  | link0 :: _ =>
    let stagingLocation := link_href link0 in
    let itemType := bodyItemType req in
    match bodyFilename req with
    | Some (String c f) =>
      let itemHref := plus stagingLocation (String c f) in
      let w := log (LogInfo ("Staging to " +:+ itemHref)) w in
      let u := {| upload_href := itemHref;
                  upload_length := default EmptyString (content_length (headers req));
                  upload_type := itemType |} in
      match upload_error env u with
      | Some e => (w, Throw e)
      | None =>
        let item := {| href := Some itemHref; type := itemType; rel := None;
                       title := None; temporal := None; bbox := None |} in
        (upload u w,
         Ok {| item := Some item; error := None; redirect := None;
               status := if isAsync job then None else Some "successful";
               progress := None |})
      end
    | _ =>
      (w, Throw (MkExn TypeError
        ("Services providing output via POST body must send a filename via a "
         +:+ dquote +:+ "Content-Disposition" +:+ dquote +:+ " header or "
         +:+ dquote +:+ "item[title]" +:+ dquote +:+ " query parameter")))
    end
  end.

(** The body of the [try] block of [responseHandler].  The job is returned
    as the handler holds it afterwards. *)
Definition responseHandler_try (env : Collaborators) (job : Job) (req : Request) (w : World)
    : World * Job * Result Response :=
  let staged := if hasFileBody req then stageBody env job req w
                else (w, Ok noOverrides) in
  match staged with
  | (w, Throw e) => (w, job, Throw e)
  | (w, Ok queryOverrides) =>
    let fields := merge (query req) queryOverrides in
    let w := log (LogInfo ("Updating job " +:+ jobID job)) w in
    match updateJobFields (logger w) job fields with
    | (l, job, Throw e) => (set_logger l w, job, Throw e)
    | (l, job, Ok _) =>
      let w := set_logger l w in
      match save_error env job with
      | Some e => (w, job, Throw e)
      | None =>
        let w := save (requestId req) job w in
        match commit_error env with
        | Some e => (w, job, Throw e)
        | None =>
          (commit w, job, Ok {| res_status := Some 200%Z; res_body := Some (TextBody "Ok") |})
        end
      end
    end
  end.

(** [responseHandler]: the world after the callback and the response sent. *)
Definition responseHandler (env : Collaborators) (req : Request) (w : World)
    : World * Response :=
  let w := transaction w in
  match byRequestId w (requestId req) with
  | None =>
    let w := rollback w in
    let w := log (LogError ("Received a callback for a missing job: requestId="
                            +:+ requestId req)) w in
    (w, {| res_status := Some 404%Z;
           res_body := Some (JsonBody 404 "could not find a job with the given ID") |})
  | Some job =>
    let '(w, job, res) :=
      match responseHandler_try env job req w with
      | (w, job, Ok res) => (w, job, res)
      | (w, job, Throw e) =>
        let w := rollback w in
        let status := statusOfError e in
        (log (LogError (exn_message e)) w, job,
         {| res_status := Some status; res_body := Some (JsonBody status (exn_message e)) |})
      end in
    let w := if isComplete job
             then log (LogComplete (length (getRelatedLinks job "data"))) w
             else w in
    (w, res)
  end.

End WithRuntime.

End ServiceResponse.

(** ** A reference runtime

    An instance of [JSRuntime] to evaluate the callback code with: decimal
    literals are read by [parseFloat] to their exact decimal value, and
    [Date.parse] reads the UTC date-time format of ECMAScript
    ([YYYY-MM-DDTHH:mm:ssZ], with optional milliseconds).  What [Date.parse]
    does with other formats depends on the engine and is not covered: the
    theorems about the callback code hold for every runtime. *)

Module Reference.
Import JSNumber.
Local Open Scope Z_scope.

Inductive decimal :=
| Finite (mantissa exponent : Z)
| Infinite (negative : bool).

Definition isNegative (s : string) : bool :=
  match s with
  | String c _ => (nat_of_ascii c =? 45)%nat
  | EmptyString => false
  end.

(** The exponent part at the start of [s], if there is a complete one. *)
Definition exponentAtStart (s : string) : Z :=
  match s with
  | String c s' =>
    if (nat_of_ascii c =? 101)%nat || (nat_of_ascii c =? 69)%nat then
      match digits (dropSign s') 0 0 with
      | (S _, v, _) => if isNegative s' then - v else v
      | _ => 0
      end
    else 0
  | EmptyString => 0
  end.

(** [parseFloat(s)]: the longest decimal literal at the start of [s], after
    leading white space. *)
Definition parseFloat_decimal (s : string) : option decimal :=
  let t := trimStart s in
  let negative := isNegative t in
  let u := dropSign t in
  if String.prefix "Infinity" u then Some (Infinite negative)
  else
    let '(n1, v1, r1) := digits u 0 0 in
    let '(n2, v2, r2) :=
      match r1 with
      | String "." r => digits r 0 v1
      | _ => (O, v1, r1)
      end in
    if (0 <? n1 + n2)%nat then
      Some (Finite (if negative then - v2 else v2)
                   (exponentAtStart r2 - Z.of_nat n2))
    else None.

Definition daysFromCivil (y m d : Z) : Z :=
  let y := if m <=? 2 then y - 1 else y in
  let era := y / 400 in
  let yoe := y - era * 400 in
  let doy := (153 * (if 2 <? m then m - 3 else m + 9) + 2) / 5 + d - 1 in
  let doe := yoe * 365 + yoe / 4 - yoe / 100 + doy in
  era * 146097 + doe - 719468.

Definition civilFromDays (z : Z) : Z * Z * Z :=
  let z := z + 719468 in
  let era := z / 146097 in
  let doe := z - era * 146097 in
  let yoe := (doe - doe / 1460 + doe / 36524 - doe / 146096) / 365 in
  let doy := doe - (365 * yoe + yoe / 4 - yoe / 100) in
  let mp := (5 * doy + 2) / 153 in
  let d := doy - (153 * mp + 2) / 5 + 1 in
  let m := if mp <? 10 then mp + 3 else mp - 9 in
  ((if m <=? 2 then yoe + era * 400 + 1 else yoe + era * 400), m, d).

(** The number written by the [n] characters of [s] from position [i], which
    must all be digits. *)
Definition field (s : string) (i n : nat) : option Z :=
  let t := String.substring i n s in
  if (String.length t =? n)%nat && allOf isDigit t
  then Some (snd (fst (digits t 0 0)))
  else None.

Definition charAt (s : string) (i : nat) (c : string) : bool :=
  String.eqb (String.substring i 1 s) c.

Definition inRange (lo hi v : Z) : option Z :=
  if (lo <=? v) && (v <=? hi) then Some v else None.

Definition parseISO (s : string) : option Z :=
  y ← field s 0 4;
  m ← field s 5 2 ≫= inRange 1 12;
  d ← field s 8 2 ≫= inRange 1 31;
  h ← field s 11 2 ≫= inRange 0 23;
  mi ← field s 14 2 ≫= inRange 0 59;
  se ← field s 17 2 ≫= inRange 0 59;
  ms ← (if (String.length s =? 20)%nat && charAt s 19 "Z" then Some 0
        else if (String.length s =? 24)%nat && charAt s 19 "." && charAt s 23 "Z"
             then field s 20 3
             else None);
  if charAt s 4 "-" && charAt s 7 "-" && charAt s 10 "T"
     && charAt s 13 ":" && charAt s 16 ":"
     && (snd (civilFromDays (daysFromCivil y m d)) =? d)
  then Some ((((daysFromCivil y m d * 24 + h) * 60 + mi) * 60 + se) * 1000 + ms)
  else None.

(** [v] written with [width] decimal digits. *)
Fixpoint padded (width : nat) (v : Z) : string :=
  match width with
  | O => EmptyString
  | S w => padded w (v / 10) +:+ String (ascii_of_nat (48 + Z.to_nat (v mod 10))) EmptyString
  end.

Definition toISOString (t : Z) : string :=
  let '(y, m, d) := civilFromDays (t / 86400000) in
  let r := t mod 86400000 in
  (if (0 <=? y) && (y <=? 9999) then padded 4 y
   else (if y <? 0 then "-" else "+") +:+ padded 6 (Z.abs y))
  +:+ "-" +:+ padded 2 m +:+ "-" +:+ padded 2 d
  +:+ "T" +:+ padded 2 (r / 3600000) +:+ ":" +:+ padded 2 (r / 60000 mod 60)
  +:+ ":" +:+ padded 2 (r / 1000 mod 60) +:+ "." +:+ padded 3 (r mod 1000) +:+ "Z".

Definition runtime : JSRuntime :=
  {| float := decimal;
     parseFloat := parseFloat_decimal;
     Date_parse := parseISO;
     Date_toISOString := toISOString |}.

End Reference.

(** ** Loading the service configurations

    The parts of [loadServiceConfigs] that are code of the router module:
    the [!Env] type, which resolves placeholders against the environment,
    and the filter that drops disabled services.  Reading and parsing
    [services.yml] are not part of it. *)

Module Loading.
Import JS Router.

(** A character of the class [\w]. *)
Definition isWordChar (c : ascii) : bool :=
  let n := nat_of_ascii c in
  ((48 <=? n)%nat && (n <=? 57)%nat)
  || ((65 <=? n)%nat && (n <=? 90)%nat)
  || ((97 <=? n)%nat && (n <=? 122)%nat)
  || (n =? 95)%nat.

Definition isDollar (c : ascii) : bool := (nat_of_ascii c =? 36)%nat.
Definition isOpenBrace (c : ascii) : bool := (nat_of_ascii c =? 123)%nat.
Definition isCloseBrace (c : ascii) : bool := (nat_of_ascii c =? 125)%nat.

(** [process.env[name] || '']. *)
Definition envValue (env : gmap string string) (name : string) : string :=
  default EmptyString (env !! name).

(** Where the scan for the expression of [loadServiceConfigs] (a dollar, an
    open brace, one word character or more, a close brace) stands: in plain
    text, after a dollar, or after a dollar, a brace and the word characters
    [name]. *)
Inductive Scan :=
| InText
| AfterDollar
| InName (name : string).

(** The text that a scan abandoned in state [st] had consumed; it holds no
    dollar but its first character, so no match starts inside it. *)
Definition pending (st : Scan) : string :=
  match st with
  | InText => EmptyString
  | AfterDollar => "$"
  | InName name => "${" +:+ name
  end.

(** [data.replace(regex, ...)] with the global expression of
    [loadServiceConfigs], from state [st]: every match is replaced by the
    value of the variable it names, from left to right, and the replacements
    are not scanned again. *)
Fixpoint replaceFrom (env : gmap string string) (st : Scan) (data : string) : string :=
  match data with
  | EmptyString => pending st
  | String c rest =>
    let restart :=
      if isDollar c then replaceFrom env AfterDollar rest
      else String c (replaceFrom env InText rest) in
    match st with
    | InText => restart
    | AfterDollar =>
      if isOpenBrace c then replaceFrom env (InName EmptyString) rest
      else "$" +:+ restart
    | InName name =>
      if isWordChar c then replaceFrom env (InName (name +:+ String c EmptyString)) rest
      else
        match name with
        | String _ _ =>
          if isCloseBrace c then envValue env name +:+ replaceFrom env InText rest
          else pending st +:+ restart
        | EmptyString => pending st +:+ restart
        end
    end
  end.

(** The [construct] function of the [!Env] type. *)
Definition construct (env : gmap string string) (data : string) : string :=
  replaceFrom env InText data.

(** The [enabled] property of a parsed configuration: missing, a boolean, or
    a string (as an [!Env] scalar is). *)
Inductive Enabled :=
| EnabledMissing
| EnabledBoolean (b : bool)
| EnabledString (s : string).

Record ParsedConfig := MkParsed {
  enabled : Enabled;
  parsed : ServiceConfig
}.

(** [config.enabled !== false && config.enabled !== 'false']. *)
Definition isEnabled (config : ParsedConfig) : bool :=
  match enabled config with
  | EnabledBoolean false => false
  | EnabledString s => negb (String.eqb s "false")
  | _ => true
  end.

(** The value that [loadServiceConfigs] assigns to [serviceConfigs], from
    the parsed document. *)
Definition loadServiceConfigs (document : list ParsedConfig) : list ServiceConfig :=
  map parsed (List.filter isEnabled document).

(** [isCollectionSupported(collection)], with [serviceConfigs] and
    [collection.id] as arguments. *)
Definition isCollectionSupported (serviceConfigs : list ServiceConfig) (id : string) : bool :=
  match List.find (fun sc => existsb (String.eqb id) (collections sc)) serviceConfigs with
  | Some _ => true
  | None => false
  end.

End Loading.

(** ** The migration that renames batch granules to batch items

    A database schema is the finite map from the names of its tables to
    their columns, in order.  A statement fails ([None]) as the database
    refuses it: a table or column to rename must exist and the new name must
    be free.  A migration is a chain of promises: the first statement that
    fails ends it. *)

Module Migration.

Abbreviation Schema := (gmap string (list string)).

(** [knex.schema.renameTable(from, to)]. *)
Definition renameTable (from to : string) (schema : Schema) : option Schema :=
  match schema !! from, schema !! to with
  | Some columns, None => Some (<[to := columns]> (delete from schema))
  | _, _ => None
  end.

(** [t.renameColumn(from, to)]: the column keeps its place. *)
Definition renameColumn (from to : string) (columns : list string) : option (list string) :=
  if existsb (String.eqb from) columns && negb (existsb (String.eqb to) columns)
  then Some (map (fun c => if String.eqb c from then to else c) columns)
  else None.

(** [knex.schema.alterTable(table, (t) => ...)]. *)
Definition alterTable (table : string) (alter : list string -> option (list string))
    (schema : Schema) : option Schema :=
  columns ← schema !! table;
  columns' ← alter columns;
  Some (<[table := columns']> schema).

Definition up (schema : Schema) : option Schema :=
  schema ← renameTable "batch_granules" "batch_items" schema;
  schema ← alterTable "batch_items"
             (fun t => t ← renameColumn "granuleUrl" "stacItemUrl" t;
                       renameColumn "granuleSize" "itemSize" t) schema;
  alterTable "work_items"
    (fun t => t ← renameColumn "totalGranulesSize" "totalItemsSize" t;
              renameColumn "outputGranuleSizesJson" "outputItemSizesJson" t) schema.

Definition down (schema : Schema) : option Schema :=
  schema ← alterTable "batch_items"
             (fun t => t ← renameColumn "stacItemUrl" "granuleUrl" t;
                       renameColumn "itemSize" "granuleSize" t) schema;
  schema ← renameTable "batch_items" "batch_granules" schema;
  alterTable "work_items"
    (fun t => t ← renameColumn "totalItemsSize" "totalGranulesSize" t;
              renameColumn "outputItemSizesJson" "outputGranuleSizesJson" t) schema.

End Migration.

(** ** Notions used to state the properties of the router *)

Module RouterSpec.
Import JS Router.

Section WithMimeNegotiation.
Context `{MimeNegotiation}.

Implicit Types (op : Operation) (ctx : option RoutingContext)
  (configs : list ServiceConfig) (st : ModuleState).

(** The condition of [filterOutputFormatMatches] under which a format is
    looked for. *)
Definition formatRequested op ctx : bool :=
  truthy (outputFormat op) || hasRequestedMimeTypes ctx.

(** A configuration supports [format]: the first entry of its output formats
    that [format] accepts is a truthy string. *)
Definition supportsFormat (format : string) (c : ServiceConfig) : bool :=
  truthy (List.find (fun f => isMimeTypeAccepted f format) (output_formats c)).

(** The text that [unsupportedCombinationMessage] looks for. *)
Definition needle : string := "reformatting to any of the requested formats".

(** What the format stage returns, case by case. *)
Inductive FormatStage op ctx configs : Operation -> Result (list ServiceConfig) -> Prop :=
| FormatUnconstrained c cs :
    formatRequested op ctx = false ->
    configs = c :: cs ->
    FormatStage op ctx configs op (Ok configs)
| FormatNoCandidates e :
    formatRequested op ctx = false ->
    configs = [] ->
    FormatStage op ctx configs op (Throw e)
| FormatResolved f c cs :
    formatRequested op ctx = true ->
    selectFormat op ctx configs = Ok (Some f) ->
    f <> EmptyString ->
    selectServicesForFormat f configs = c :: cs ->
    FormatStage op ctx configs (set_outputFormat (Some f) op) (Ok (c :: cs))
| FormatUnsupported f formats :
    formatRequested op ctx = true ->
    selectFormat op ctx configs = Ok (Some f) ->
    f <> EmptyString ->
    selectServicesForFormat f configs = [] ->
    requestedFormatsText (set_outputFormat (Some f) op) ctx = Ok formats ->
    FormatStage op ctx configs (set_outputFormat (Some f) op)
      (Throw (unsupported (reformattingMessage formats)))
| FormatUnresolved r formats :
    formatRequested op ctx = true ->
    selectFormat op ctx configs = Ok r ->
    truthy r = false ->
    requestedFormatsText op ctx = Ok formats ->
    FormatStage op ctx configs op (Throw (unsupported (reformattingMessage formats))).

(** The outcomes of the [try] block of [forOperation]. *)
Inductive TryOutcome op ctx configs : Operation -> Result (option ServiceRef) -> Prop :=
| TryNoCollection :
    filterCollectionMatches op ctx configs
      = Throw (unsupported "no services are configured for the collection") ->
    TryOutcome op ctx configs op
      (Throw (unsupported "no services are configured for the collection"))
| TryNoSubsetting cm :
    filterCollectionMatches op ctx configs = Ok cm ->
    filterVariableSubsettingMatches op ctx cm
      = Throw (unsupported
          "none of the services configured for the collection support variable subsetting") ->
    TryOutcome op ctx configs op
      (Throw (unsupported
          "none of the services configured for the collection support variable subsetting"))
| TryNoFormat cm vm op' formats :
    filterCollectionMatches op ctx configs = Ok cm ->
    filterVariableSubsettingMatches op ctx cm = Ok vm ->
    filterOutputFormatMatches op ctx vm
      = (op', Throw (unsupported (reformattingMessage formats))) ->
    formatRequested op' ctx = true ->
    requestedFormatsText op' ctx = Ok formats ->
    sources op' = sources op ->
    TryOutcome op ctx configs op' (Throw (unsupported (reformattingMessage formats)))
| TrySelected cm vm op' c cs :
    filterCollectionMatches op ctx configs = Ok cm ->
    filterVariableSubsettingMatches op ctx cm = Ok vm ->
    filterOutputFormatMatches op ctx vm = (op', Ok (c :: cs)) ->
    FormatStage op ctx vm op' (Ok (c :: cs)) ->
    TryOutcome op ctx configs op' (Ok (Some (ConfigRef c))).

(** The collection stage and the format stage over the full list, without
    the variable-subsetting stage between them. *)
Definition rerunIgnoringSubsetting op ctx configs : Result (list ServiceConfig) :=
  matches ← filterCollectionMatches op ctx configs;
  snd (filterOutputFormatMatches op ctx matches).

(** The formats that a message about formats names: the output format of
    the operation when it has one, else the requested mime types, separated
    by commas. *)
Definition askedFormats op ctx : string :=
  match outputFormat op with
  | Some (String a f) => String a f
  | _ =>
    match ctx with
    | Some {| requestedMimeTypes := Some patterns |} => join_commas patterns
    | _ => EmptyString
    end
  end.




(** The selection of the no-op service for [op]. *)
Definition noOpSelection op : Service :=
  {| service_class := NoOpService; service_config := NoOpRef; service_operation := op |}.

(** The format stage as the specification words it: a configuration is kept
    for a pattern when its output formats contain an entry that the pattern
    accepts. *)
Definition declaresAccepted (pattern : string) (c : ServiceConfig) : bool :=
  existsb (fun f => isMimeTypeAccepted f pattern) (output_formats c).

(** The requested patterns are scanned in order; the first one that keeps a
    configuration decides, and the format is the first entry of the first
    configuration kept that the pattern accepts. *)
Fixpoint scanRequested (patterns : list string) configs : option string :=
  match patterns with
  | [] => None
  | pattern :: rest =>
    match List.filter (declaresAccepted pattern) configs with
    | first :: _ =>
      List.find (fun f => isMimeTypeAccepted f pattern) (output_formats first)
    | [] => scanRequested rest configs
    end
  end.

(** The resolved format [f] is written onto the operation and the
    configurations are filtered to those that support it. *)
Definition resolvedWith op configs (f : string) : Operation * Result (list ServiceConfig) :=
  (set_outputFormat (Some f) op,
   match List.filter (declaresAccepted f) configs with
   | [] => Throw (unsupported (reformattingMessage f))
   | kept => Ok kept
   end).

(** No configuration declares the empty string as an output format. *)
Definition wellFormedFormats configs : Prop :=
  forall c, In c configs -> ~ In EmptyString (output_formats c).

End WithMimeNegotiation.

End RouterSpec.

(** ** Sample operations and configurations *)

Module RouterSamples.
Import Router.

Definition tiffService : ServiceConfig :=
  {| type_name := "docker"; collections := ["C1"];
     output_formats := ["image/tiff"];
     subsetting_variable := true; message := None |}.

Definition pngService : ServiceConfig :=
  {| type_name := "http"; collections := ["C1"];
     output_formats := ["image/png"];
     subsetting_variable := false; message := None |}.

Definition tiffPngService : ServiceConfig :=
  {| type_name := "http"; collections := ["C1"];
     output_formats := ["image/tiff"; "image/png"];
     subsetting_variable := false; message := None |}.

(** An operation on collection [C1] with its output format set. *)
Definition pngOperation : Operation :=
  {| sources := [{| collection := "C1"; variables := None |}];
     outputFormat := Some "image/png" |}.

(** An operation on collection [C1] with a variable and no output format. *)
Definition variableOperation : Operation :=
  {| sources := [{| collection := "C1"; variables := Some ["v1"] |}];
     outputFormat := None |}.

Definition plainOperation : Operation :=
  {| sources := [{| collection := "C1"; variables := None |}];
     outputFormat := None |}.


(** A service whose type is named [constructor]. *)
Definition constructorKindService : ServiceConfig :=
  {| type_name := "constructor"; collections := ["C1"];
     output_formats := ["image/tiff"];
     subsetting_variable := true; message := None |}.

(** A service whose type has a name of no property. *)
Definition unknownKindService : ServiceConfig :=
  {| type_name := "lambda"; collections := ["C1"];
     output_formats := ["image/tiff"];
     subsetting_variable := true; message := None |}.

Definition requested (patterns : list string) : option RoutingContext :=
  Some {| requestedMimeTypes := Some patterns |}.

Definition initial : ModuleState := {| noOpService_message := None |}.

End RouterSamples.

(** ** Notions used to state the properties of the callback handler *)

Module CallbackSpec.
Import JS Job ServiceResponse.

Section WithRuntime.
Context `{JSRuntime}.

(** A bounding box as the specification words it: the string must parse to
    exactly 4 floating values. *)
Definition parsedBbox (s : string) : option (list float) :=
  match allSome (parseFloat <$> split_commas s) with
  | Some [w; s; e; n] => Some [w; s; e; n]
  | _ => None
  end.

(** A temporal range as the specification words it: the string must parse to
    exactly 2 timestamps, each written in the ISO format. *)
Definition parsedTemporal (s : string) : option (string * string) :=
  match allSome (Date_parse <$> split_commas s) with
  | Some [t1; t2] => Some (Date_toISOString t1, Date_toISOString t2)
  | _ => None
  end.

(** What is stored for an optional field of an item: nothing for a field
    that is absent or empty, the parsed value for one that parses; [None]
    when the field is carried and does not parse. *)
Definition expected {A} (parse : string -> option A) (field : option string)
    : option (option A) :=
  match field with
  | Some (String c s) => Some <$> parse (String c s)
  | _ => Some None
  end.

(** The link stored for an item with bounding box [bb] and temporal range
    [range]. *)
Definition storedLink (it : CallbackQueryItem) (bb : option (list float))
    (range : option (string * string)) : JobLink :=
  {| link_href := href it;
     link_type := type it;
     link_rel := if truthy (rel it) then rel it else Some "data";
     link_title := title it;
     link_bbox := bb;
     link_temporal := range |}.

Definition bboxError : Exn :=
  MkExn TypeError
    "Unrecognized bounding box format.  Must be 4 comma-separated floats as West,South,East,North".

Definition temporalError : Exn :=
  MkExn TypeError
    "Unrecognized temporal format.  Must be 2 RFC-3339 dates with optional fractional seconds as Start,End".

(** The validation error that [updateJobFields] throws for [e]. *)
Definition validationError (e : Exn) : Exn :=
  MkExn RequestValidationError (exn_message e).

Definition itemValid (it : CallbackQueryItem) : bool :=
  bool_decide (is_Some (expected parsedBbox (bbox it)))
  && bool_decide (is_Some (expected parsedTemporal (temporal it))).

Definition progressValid (p : option string) : bool :=
  match p with
  | Some (String c s) => negb (JSNumber.unaryPlus_isNaN (String c s))
  | _ => true
  end.

(** The fields of a callback pass the validation of [updateJobFields]. *)
Definition fieldsValid (q : CallbackQuery) : bool :=
  from_option itemValid true (item q) && progressValid (ServiceResponse.progress q).

(** The upload that stages the body of [req] under [stagingLocation]. *)
Definition stagedUpload (req : Request) (stagingLocation : option string)
    (filename : string) : Upload :=
  {| upload_href := plus stagingLocation filename;
     upload_length := default EmptyString (content_length (headers req));
     upload_type := bodyItemType req |}.

(** The invariant of the specification on the progress of a job: an
    integer from 0 to 100. *)
Definition progressInRange (job : Job) : bool :=
  match Job.progress job with
  | Some p => (0 <=? p)%Z && (p <=? 100)%Z
  | None => false
  end.

(** Collaborators of which [job.save] refuses a job whose progress is out of
    range, with an error of the kind that record validation raises. *)
Definition validating : Collaborators :=
  {| upload_error := fun _ => None;
     save_error := fun job =>
       if progressInRange job then None
       else Some (MkExn TypeError
                    ("Job record is invalid: [" +:+ dquote
                     +:+ "Job progress must be between 0 and 100" +:+ dquote +:+ "]"));
     commit_error := None |}.

(** Collaborators that do not fail. *)
Definition reliable : Collaborators :=
  {| upload_error := fun _ => None; save_error := fun _ => None; commit_error := None |}.

Definition okResponse : Response :=
  {| res_status := Some 200%Z; res_body := Some (TextBody "Ok") |}.

Definition errorResponse (code : Z) (msg : string) : Response :=
  {| res_status := Some code; res_body := Some (JsonBody code msg) |}.

End WithRuntime.

End CallbackSpec.

(** ** Sample jobs and callbacks, on the reference runtime *)

Module CallbackSamples.
Import JS Job ServiceResponse CallbackSpec.

#[local] Existing Instance Reference.runtime.

Definition stagingLink : JobLink :=
  {| link_href := Some "s3://staging/req-1/"; link_type := None;
     link_rel := Some "s3-access"; link_title := None;
     link_bbox := None; link_temporal := None |}.

(** A running synchronous job with a staging link. *)
Definition syncJob : Job :=
  {| jobID := "job-1"; Job.status := running; message := None;
     Job.progress := Some 0%Z; links := [stagingLink]; isAsync := false |}.

(** A running synchronous job with no link. *)
Definition bareJob : Job :=
  {| jobID := "job-2"; Job.status := running; message := None;
     Job.progress := Some 0%Z; links := []; isAsync := false |}.

Definition world0 : World :=
  {| jobs := {[ "req-1" := syncJob; "req-2" := bareJob ]};
     objectStore := []; logger := []; trx := TrxCommitted; trx_writes := ∅ |}.

Definition emptyQuery : CallbackQuery :=
  {| item := None; error := None; redirect := None; status := None; progress := None |}.

Definition noHeaders : Headers :=
  {| content_length := None; content_type := None; content_disposition := None |}.

(** The headers of a callback with a body of 1024 bytes. *)
Definition bodyHeaders (disposition : option string) : Headers :=
  {| content_length := Some "1024";
     content_type := Some "application/x-netcdf";
     content_disposition := disposition |}.

Definition attachment : string :=
  "attachment; filename=" +:+ dquote +:+ "out.nc" +:+ dquote.

(** A file body for [req-1] with no file name. *)
Definition noFilenameRequest : Request :=
  {| requestId := "req-1"; query := emptyQuery; headers := bodyHeaders None |}.

(** A file body for [req-1] named [out.nc]. *)
Definition fileRequest : Request :=
  {| requestId := "req-1"; query := emptyQuery; headers := bodyHeaders (Some attachment) |}.

(** A file body for [req-2], whose job has no staging link. *)
Definition bareFileRequest : Request :=
  {| requestId := "req-2"; query := emptyQuery; headers := bodyHeaders (Some attachment) |}.

(** A callback for a request id that no job has. *)
Definition unknownRequest : Request :=
  {| requestId := "req-9"; query := emptyQuery; headers := noHeaders |}.

(** A callback for [req-1] that reports progress [p]. *)
Definition progressRequest (p : string) : Request :=
  {| requestId := "req-1";
     query := {| item := None; error := None; redirect := None; status := None;
                 progress := Some p |};
     headers := noHeaders |}.

Definition itemWith (bbox temporal : option string) : CallbackQueryItem :=
  {| href := Some "https://example.com/out.nc"; type := None; rel := None;
     title := None; temporal := temporal; bbox := bbox |}.

Definition itemQuery (it : CallbackQueryItem) : CallbackQuery :=
  {| item := Some it; error := None; redirect := None; status := None; progress := None |}.

End CallbackSamples.

(** ** Notions used to state further properties of the router *)

Module RouterMoreSpec.
Import JS Router RouterSpec.

Section WithMimeNegotiation.
Context `{MimeNegotiation}.

(** What the three stages ask of a configuration, for the operation [op]
    before the call and [op'] after it: its collections cover the sources,
    it subsets by variable if the operation needs that, and it supports the
    output format, if one is asked for. *)
Definition eligible (op : Operation) (ctx : option RoutingContext) (op' : Operation)
    (c : ServiceConfig) : bool :=
  isCollectionMatch op c
  && (negb (requiresVariableSubsetting op) || subsetting_variable c)
  && (negb (formatRequested op ctx)
      || supportsFormat (default EmptyString (outputFormat op')) c).

(** The result of [forOperation] when it falls back to the no-op service
    with [message], leaving the operation [op]. *)
Definition fallback (message : string) (op : Operation)
    : ModuleState * Operation * Result Service :=
  (MkModule (Some message), op, Ok (noOpSelection op)).

End WithMimeNegotiation.

End RouterMoreSpec.

(** ** Notions used to state the properties of the [!Env] type *)

Module LoadingSpec.
Import Loading.

(** No character of [s] is a dollar. *)
Definition hasNoDollar (s : string) : bool :=
  forallb (fun c => negb (isDollar c)) (list_ascii_of_string s).

(** [s] is a name: one word character or more. *)
Definition isName (s : string) : bool :=
  match s with
  | EmptyString => false
  | _ => forallb isWordChar (list_ascii_of_string s)
  end.

(** The placeholder of the variable [name]. *)
Definition placeholder (name : string) : string := "${" +:+ name +:+ "}".

End LoadingSpec.

(** ** Notions used to state further properties of the callback handler *)

Module CallbackMoreSpec.
Import JS Job ServiceResponse.

Section WithRuntime.
Context `{JSRuntime}.

(** The link that [updateJobFields] adds for the redirect [r]. *)
Definition redirectLink (r : string) : JobLink :=
  {| link_href := Some r; link_type := None; link_rel := Some "data";
     link_title := None; link_bbox := None; link_temporal := None |}.

(** The link that [updateJobFields] adds for the item of [q], if it has one
    that passes validation. *)
Definition itemLinks (q : CallbackQuery) : list JobLink :=
  match item q with
  | Some it =>
    match linkOfItem it with
    | Ok link => [link]
    | Throw _ => []
    end
  | None => []
  end.

End WithRuntime.

(** No character of [s] is a double quote. *)
Definition hasNoQuote (s : string) : bool :=
  forallb (fun c => negb (nat_of_ascii c =? 34)%nat) (list_ascii_of_string s).

(** No character of [s] is a comma. *)
Definition hasNoComma (s : string) : bool :=
  forallb (fun c => negb (nat_of_ascii c =? 44)%nat) (list_ascii_of_string s).

(** The number of commas of [s]. *)
Definition commas (s : string) : nat :=
  length (List.filter (fun c => (nat_of_ascii c =? 44)%nat) (list_ascii_of_string s)).

End CallbackMoreSpec.

(** ** Notions used to state the properties of the migration *)

Module MigrationSpec.

(** The name of a column after [a] is renamed to [b] and [a'] to [b']. *)
Definition renamed (a b a' b' : string) (column : string) : string :=
  if String.eqb column a then b
  else if String.eqb column a' then b'
  else column.

End MigrationSpec.

(** ** More sample data *)

Module RouterMoreSamples.
Import Router RouterSamples.

(** An operation on collection [C9], which no sample service lists. *)
Definition strayOperation : Operation :=
  {| sources := [{| collection := "C9"; variables := None |}];
     outputFormat := None |}.

(** An operation with no sources. *)
Definition emptyOperation : Operation :=
  {| sources := []; outputFormat := None |}.

End RouterMoreSamples.

Module LoadingSamples.

Definition environment : gmap string string := {[ "CMR_ENV" := "uat" ]}.

End LoadingSamples.

Module CallbackMoreSamples.
Import JS Job ServiceResponse CallbackSpec CallbackSamples.

#[local] Existing Instance Reference.runtime.

(** A running asynchronous job with a staging link. *)
Definition asyncJob : Job :=
  {| jobID := "job-3"; Job.status := running; message := None;
     Job.progress := Some 0%Z; links := [stagingLink]; isAsync := true |}.

Definition world1 : World :=
  {| jobs := {[ "req-3" := asyncJob ]};
     objectStore := []; logger := []; trx := TrxCommitted; trx_writes := ∅ |}.

(** A file body for [req-3] named [out.nc]. *)
Definition asyncFileRequest : Request :=
  {| requestId := "req-3"; query := emptyQuery; headers := bodyHeaders (Some attachment) |}.

(** A file body for [req-1] named [out.nc], with a progress that is not a
    number. *)
Definition invalidFileRequest : Request :=
  {| requestId := "req-1";
     query := {| item := None; error := None; redirect := None; status := None;
                 progress := Some "half" |};
     headers := bodyHeaders (Some attachment) |}.

(** A callback that reports an error, a status and a redirect at once. *)
Definition errorQuery : CallbackQuery :=
  {| item := None; error := Some "out of memory"; redirect := Some "https://example.com/out.nc";
     status := Some "successful"; progress := None |}.

Definition errorRequest : Request :=
  {| requestId := "req-1"; query := errorQuery; headers := noHeaders |}.

(** A callback that redirects to a result and carries an item as well. *)
Definition redirectQuery : CallbackQuery :=
  {| item := Some (itemWith None None); error := None;
     redirect := Some "https://example.com/all.zip"; status := None; progress := None |}.

Definition databaseDown : Exn := MkExn OtherError "connection lost".

(** Collaborators of which [job.save] fails. *)
Definition unsaved : Collaborators :=
  {| upload_error := fun _ => None; save_error := fun _ => Some databaseDown;
     commit_error := None |}.

End CallbackMoreSamples.

Module MigrationSamples.
Import Migration.

(** A schema from before the migration, with a table that it does not
    touch. *)
Definition before : Schema :=
  {[ "batch_granules" := ["id"; "jobID"; "granuleUrl"; "granuleSize"];
     "work_items" := ["id"; "totalGranulesSize"; "outputGranuleSizesJson"; "status"];
     "jobs" := ["id"; "status"] ]}.

(** The same schema after the migration. *)
Definition after : Schema :=
  {[ "batch_items" := ["id"; "jobID"; "stacItemUrl"; "itemSize"];
     "work_items" := ["id"; "totalItemsSize"; "outputItemSizesJson"; "status"];
     "jobs" := ["id"; "status"] ]}.

End MigrationSamples.

(** * Properties *)

(** ** JavaScript preliminaries *)

Module JSFacts.
Import JS.

Lemma truthy_Some (v : option string) :
  truthy v = true -> exists s, v = Some s /\ s <> EmptyString.
Proof.
  destruct v as [[|a s]|]; simpl; try discriminate.
  intros _. exists (String a s). split; [reflexivity | discriminate].
Qed.

Lemma truthy_nonempty (s : string) : s <> EmptyString -> truthy (Some s) = true.
Proof. destruct s; [congruence | reflexivity]. Qed.

Lemma prefix_append (a b : string) : String.prefix a (a +:+ b) = true.
Proof.
  induction a as [|c a IH]; simpl.
  - destruct b; reflexivity.
  - destruct (ascii_dec c c); [exact IH | congruence].
Qed.

Lemma includes_unfold (s needle : string) :
  includes s needle =
  String.prefix needle s ||
  match s with
  | EmptyString => false
  | String _ s' => includes s' needle
  end.
Proof. destruct s; reflexivity. Qed.

Lemma includes_append_r (a needle b : string) :
  includes (a +:+ needle +:+ b) needle = true.
Proof.
  induction a as [|c a IH].
  - change (EmptyString +:+ needle +:+ b) with (needle +:+ b).
    rewrite includes_unfold, prefix_append. reflexivity.
  - change (String c a +:+ needle +:+ b) with (String c (a +:+ needle +:+ b)).
    rewrite includes_unfold, IH. apply orb_true_r.
Qed.

End JSFacts.

(** ** The operation router *)

Module RouterFacts.
Import JS JSFacts Router RouterSpec.

Section WithMimeNegotiation.
Context `{MimeNegotiation}.

Implicit Types (op : Operation) (ctx : option RoutingContext)
  (configs : list ServiceConfig) (st : ModuleState).

Lemma supportsFormat_entry format c :
  supportsFormat format c = true ->
  exists e, In e (output_formats c) /\ isMimeTypeAccepted e format = true.
Proof.
  unfold supportsFormat. intros Ht.
  apply truthy_Some in Ht as (e & Hfind & _).
  apply find_some in Hfind. eauto.
Qed.

Lemma selectServicesForFormat_In format configs c :
  In c (selectServicesForFormat format configs) ->
  In c configs /\ supportsFormat format c = true.
Proof. unfold selectServicesForFormat. intros Hin. apply filter_In in Hin. exact Hin. Qed.

Lemma selectFormat_requested op ctx configs :
  formatRequested op ctx = true ->
  exists r, selectFormat op ctx configs = Ok r /\
            (truthy (outputFormat op) = true -> r = outputFormat op).
Proof.
  unfold formatRequested, selectFormat. intros Hreq.
  destruct (truthy (outputFormat op)) eqn:Ht.
  - eauto.
  - simpl in Hreq. unfold hasRequestedMimeTypes in Hreq.
    destruct ctx as [c|]; [|discriminate].
    destruct (requestedMimeTypes c) as [[|m ms]|]; try discriminate.
    eexists. split; [reflexivity | discriminate].
Qed.

Lemma requestedFormatsText_requested op ctx :
  formatRequested op ctx = true ->
  exists formats, requestedFormatsText op ctx = Ok formats.
Proof.
  unfold formatRequested, requestedFormatsText. intros Hreq.
  destruct (outputFormat op) as [[|a s]|]; simpl in Hreq; eauto;
    unfold hasRequestedMimeTypes in Hreq;
    (destruct ctx as [c|]; [|discriminate]);
    destruct (requestedMimeTypes c); eauto.
Qed.

Lemma formatRequested_set (f : option string) op ctx :
  truthy f = true -> formatRequested (set_outputFormat f op) ctx = true.
Proof. unfold formatRequested. simpl. now intros ->. Qed.

Lemma filterOutputFormatMatches_cases op ctx configs :
  FormatStage op ctx configs
    (fst (filterOutputFormatMatches op ctx configs))
    (snd (filterOutputFormatMatches op ctx configs)).
Proof.
  unfold filterOutputFormatMatches.
  fold (formatRequested op ctx).
  destruct (formatRequested op ctx) eqn:Hreq.
  - destruct (selectFormat_requested op ctx configs Hreq) as (r & Hsel & _).
    rewrite Hsel.
    destruct (truthy r) eqn:Ht.
    + destruct (truthy_Some _ Ht) as (f & -> & Hne). simpl.
      destruct (selectServicesForFormat f configs) as [|c cs] eqn:Hs; simpl.
      * destruct (requestedFormatsText_requested (set_outputFormat (Some f) op) ctx
                    (formatRequested_set (Some f) op ctx Ht)) as (formats & Hf).
        rewrite Hf. simpl. eapply FormatUnsupported; eauto.
      * eapply FormatResolved; eauto.
    + destruct (requestedFormatsText_requested op ctx Hreq) as (formats & Hf).
      simpl. rewrite Hf. simpl. eapply FormatUnresolved; eauto.
  - destruct configs as [|c cs]; simpl.
    + destruct (requestedFormatsText op ctx); now apply FormatNoCandidates.
    + eapply FormatUnconstrained; eauto.
Qed.

Lemma reformattingMessage_includes formats :
  includes (reformattingMessage formats) needle = true.
Proof.
  unfold reformattingMessage.
  apply (includes_append_r
           "none of the services configured for the collection support "
           needle (" [" +:+ formats +:+ "]")).
Qed.

Lemma filterCollectionMatches_sources op op' ctx ctx' configs :
  sources op' = sources op ->
  filterCollectionMatches op' ctx' configs = filterCollectionMatches op ctx configs.
Proof.
  intros Hs. unfold filterCollectionMatches, isCollectionMatch. now rewrite Hs.
Qed.

Lemma requiresVariableSubsetting_sources op op' :
  sources op' = sources op ->
  requiresVariableSubsetting op' = requiresVariableSubsetting op.
Proof. intros Hs. unfold requiresVariableSubsetting. now rewrite Hs. Qed.

Lemma filterCollectionMatches_Ok op ctx configs cm :
  filterCollectionMatches op ctx configs = Ok cm ->
  cm = List.filter (isCollectionMatch op) configs /\ cm <> [].
Proof.
  unfold filterCollectionMatches.
  destruct (List.filter (isCollectionMatch op) configs) eqn:E; [discriminate|].
  intros [= <-]. split; [reflexivity | discriminate].
Qed.

Lemma filterCollectionMatches_Throw op ctx configs e :
  filterCollectionMatches op ctx configs = Throw e ->
  e = unsupported "no services are configured for the collection".
Proof.
  unfold filterCollectionMatches.
  destruct (List.filter (isCollectionMatch op) configs); [|discriminate].
  now intros [= <-].
Qed.

Lemma filterVariableSubsettingMatches_Ok op ctx configs vm :
  filterVariableSubsettingMatches op ctx configs = Ok vm ->
  vm = (if requiresVariableSubsetting op then supportsVariableSubsetting configs
        else configs) /\ vm <> [].
Proof.
  unfold filterVariableSubsettingMatches.
  destruct (if requiresVariableSubsetting op then _ else _) eqn:E; [discriminate|].
  intros [= <-]. split; [reflexivity | discriminate].
Qed.

Lemma filterVariableSubsettingMatches_Throw op ctx configs e :
  filterVariableSubsettingMatches op ctx configs = Throw e ->
  e = unsupported
        "none of the services configured for the collection support variable subsetting".
Proof.
  unfold filterVariableSubsettingMatches.
  destruct (if requiresVariableSubsetting op then _ else _); [|discriminate].
  now intros [= <-].
Qed.

Lemma forOperation_try_cases op ctx configs :
  TryOutcome op ctx configs
    (fst (forOperation_try op ctx configs))
    (snd (forOperation_try op ctx configs)).
Proof.
  unfold forOperation_try.
  destruct (filterCollectionMatches op ctx configs) as [cm|e] eqn:Hc.
  2:{ pose proof (filterCollectionMatches_Throw _ _ _ _ Hc) as ->.
      simpl. now apply TryNoCollection. }
  destruct (filterVariableSubsettingMatches op ctx cm) as [vm|e] eqn:Hv.
  2:{ pose proof (filterVariableSubsettingMatches_Throw _ _ _ _ Hv) as ->.
      simpl. eapply TryNoSubsetting; eauto. }
  pose proof (filterOutputFormatMatches_cases op ctx vm) as Hf.
  destruct (filterVariableSubsettingMatches_Ok _ _ _ _ Hv) as [_ Hne].
  destruct (filterOutputFormatMatches op ctx vm) as [op' r] eqn:Hfo.
  simpl in Hf.
  inversion Hf; subst; simpl.
  - eapply TrySelected; eauto.
  - congruence.
  - eapply TrySelected; eauto.
  - eapply TryNoFormat; eauto.
    apply formatRequested_set. now apply truthy_nonempty.
  - eapply TryNoFormat; eauto.
Qed.

Lemma filterOutputFormatMatches_requested_snd op ctx configs r :
  formatRequested op ctx = true ->
  selectFormat op ctx configs = Ok r ->
  match snd (filterOutputFormatMatches op ctx configs) with
  | Ok services =>
    truthy r = true /\
    services = selectServicesForFormat (default EmptyString r) configs /\
    services <> []
  | Throw _ =>
    truthy r = false \/ selectServicesForFormat (default EmptyString r) configs = []
  end.
Proof.
  intros Hreq Hsel. unfold filterOutputFormatMatches.
  fold (formatRequested op ctx). rewrite Hreq, Hsel.
  destruct (truthy r) eqn:Ht.
  - destruct (selectServicesForFormat (default EmptyString r) configs) eqn:Hs; simpl.
    + destruct (requestedFormatsText (set_outputFormat r op) ctx); simpl; auto.
    + repeat split; discriminate.
  - simpl. destruct (requestedFormatsText op ctx); simpl; auto.
Qed.

(** The diagnosis after a failure of the format stage. *)
Lemma unsupportedCombinationMessage_format op ctx configs cm formats :
  filterCollectionMatches op ctx configs = Ok cm ->
  formatRequested op ctx = true ->
  requestedFormatsText op ctx = Ok formats ->
  unsupportedCombinationMessage op ctx configs (reformattingMessage formats)
  = Ok (if requiresVariableSubsetting op then
          match rerunIgnoringSubsetting op ctx configs with
          | Ok _ => combinationMessage formats
          | Throw _ => reformattingMessage formats
          end
        else reformattingMessage formats).
Proof.
  intros Hc Hreq Hf. unfold unsupportedCombinationMessage, rerunIgnoringSubsetting.
  fold needle. rewrite reformattingMessage_includes.
  destruct (requiresVariableSubsetting op); [|reflexivity].
  rewrite Hc. simpl.
  destruct (selectFormat_requested op ctx cm Hreq) as (r & Hsel & _).
  pose proof (filterOutputFormatMatches_requested_snd op ctx cm r Hreq Hsel) as Hrerun.
  rewrite Hsel. simpl.
  destruct (snd (filterOutputFormatMatches op ctx cm)) as [services|e].
  - destruct Hrerun as (Ht & -> & Hne). rewrite Ht.
    destruct (selectServicesForFormat (default EmptyString r) cm); [congruence|].
    rewrite Hf. reflexivity.
  - destruct Hrerun as [Ht | Hs].
    + now rewrite Ht.
    + rewrite Hs. now destruct (truthy r).
Qed.

(** The diagnosis after a failure of one of the first two stages. *)
Lemma unsupportedCombinationMessage_other op ctx configs reason :
  includes reason needle = false ->
  unsupportedCombinationMessage op ctx configs reason = Ok reason.
Proof.
  intros Hi. unfold unsupportedCombinationMessage. fold needle. now rewrite Hi.
Qed.

(** The diagnosis never throws after a failed [try] block. *)
Lemma diagnosis_total op ctx configs op' e :
  TryOutcome op ctx configs op' (Throw e) ->
  exn_class e = UnsupportedOperation /\
  exists diagnostic,
    unsupportedCombinationMessage op' ctx configs (exn_message e) = Ok diagnostic.
Proof.
  inversion 1; subst; simpl; (split; [reflexivity|]).
  - eexists. now apply unsupportedCombinationMessage_other.
  - eexists. now apply unsupportedCombinationMessage_other.
  - erewrite unsupportedCombinationMessage_format; eauto.
    erewrite filterCollectionMatches_sources; eauto.
Qed.

Lemma forOperation_selected st op ctx configs op' service :
  forOperation_try op ctx configs = (op', Ok service) ->
  forOperation st op ctx configs = (st, op', buildService st service op').
Proof. intros Ht. unfold forOperation. now rewrite Ht. Qed.

Lemma forOperation_fallback st op ctx configs op' e :
  forOperation_try op ctx configs = (op', Throw e) ->
  exists diagnostic,
    unsupportedCombinationMessage op' ctx configs (exn_message e) = Ok diagnostic /\
    forOperation st op ctx configs
    = (MkModule (Some diagnostic), op', Ok (noOpSelection op')).
Proof.
  intros Ht.
  pose proof (forOperation_try_cases op ctx configs) as Hcases.
  rewrite Ht in Hcases. simpl in Hcases.
  destruct (diagnosis_total _ _ _ _ _ Hcases) as (Hclass & diagnostic & Hd).
  exists diagnostic. split; [exact Hd|].
  unfold forOperation. now rewrite Ht, Hclass, Hd.
Qed.

Lemma buildService_config st r op :
  match buildService st (Some r) op with
  | Ok s => service_config s = r /\ service_operation s = op
  | Throw e =>
    serviceTypesToServiceClasses !! type_name (deref st r) = None /\
    type_name (deref st r) <> "constructor" /\
    exn_class e = if existsb (String.eqb (type_name (deref st r))) inheritedNonConstructors
                  then TypeError else NotFoundError
  end.
Proof.
  unfold buildService, getProperty.
  destruct (serviceTypesToServiceClasses !! type_name (deref st r)); [simpl; auto|].
  destruct (String.eqb_spec (type_name (deref st r)) "constructor"); [simpl; auto|].
  destruct (existsb (String.eqb (type_name (deref st r))) inheritedNonConstructors);
    cbn [exn_class]; auto.
Qed.

Lemma rerunIgnoringSubsetting_nonempty op ctx configs services :
  rerunIgnoringSubsetting op ctx configs = Ok services -> services <> [].
Proof.
  unfold rerunIgnoringSubsetting.
  destruct (filterCollectionMatches op ctx configs) as [cm|e] eqn:Hc; simpl; [|discriminate].
  destruct (filterCollectionMatches_Ok _ _ _ _ Hc) as [_ Hne].
  pose proof (filterOutputFormatMatches_cases op ctx cm) as Hcases.
  intros Hr. rewrite Hr in Hcases.
  inversion Hcases; subst; congruence.
Qed.

(** The formats that the code names in a message are those asked for. *)
Lemma requestedFormatsText_asked op ctx formats :
  formatRequested op ctx = true ->
  requestedFormatsText op ctx = Ok formats ->
  formats = askedFormats op ctx.
Proof.
  unfold formatRequested, requestedFormatsText, askedFormats, hasRequestedMimeTypes.
  destruct (outputFormat op) as [[|a f]|]; simpl.
  - destruct ctx as [[[[|m ms]|]]|]; try discriminate. now intros _ [= <-].
  - now intros _ [= <-].
  - destruct ctx as [[[[|m ms]|]]|]; try discriminate. now intros _ [= <-].
Qed.



(** C1, amended.  When [forOperation] returns one of the given service
    configurations and [operation.outputFormat] is set on return, that
    configuration has an output format accepted by it.  When it returns the
    no-op service, the output formats of that service are
    [application/json], whatever the output format of the operation. *)
Theorem selected_config_supports_outputFormat st op ctx configs :
  let '(st', op', r) := forOperation st op ctx configs in
  forall s, r = Ok s ->
    match service_config s with
    | ConfigRef c =>
      forall f, outputFormat op' = Some f -> f <> EmptyString ->
        exists e, In e (output_formats c) /\ isMimeTypeAccepted e f = true
    | NoOpRef => output_formats (deref st' NoOpRef) = ["application/json"]
    end.
Proof.
  pose proof (forOperation_try_cases op ctx configs) as Hcases.
  destruct (forOperation_try op ctx configs) as [op1 [service|e1]] eqn:Ht; simpl in *.
  - rewrite (forOperation_selected st _ _ _ _ _ Ht).
    intros s Hs. inversion Hcases as [| | |cm vm op2 c cs Hc Hv Hfo Hstage]; subst.
    pose proof (buildService_config st (ConfigRef c) op1) as Hb.
    rewrite Hs in Hb. destruct Hb as [-> _].
    intros f Hf Hne.
    inversion Hstage; subst.
    + exfalso. unfold formatRequested in *.
      rewrite Hf, (truthy_nonempty f Hne) in *. discriminate.
    + simpl in Hf. injection Hf as ->.
      apply supportsFormat_entry.
      apply (selectServicesForFormat_In f vm c).
      match goal with Hsel : selectServicesForFormat _ _ = _ |- _ => rewrite Hsel end.
      now left.
  - destruct (forOperation_fallback st _ _ _ _ _ Ht) as (diagnostic & _ & ->).
    intros s [= <-]. reflexivity.
Qed.

(** C4.  For an operation that requires variable subsetting and whose
    selection fails at the format stage, [forOperation] returns the no-op
    service.  The format stage failed with the reason that no service
    supports reformatting to the formats asked for.  The message of the no-op
    service says that no service supports the combination of both variable
    subsetting and the formats asked for, when the collection stage and the
    format stage, run over the full list of configurations without the
    variable-subsetting stage, leave a non-empty list of services; otherwise
    it is the reason the format stage failed with.  [op1] is the operation as
    the failed format stage left it. *)
Theorem combination_diagnosis st op ctx configs cm vm op1 reason :
  requiresVariableSubsetting op = true ->
  filterCollectionMatches op ctx configs = Ok cm ->
  filterVariableSubsettingMatches op ctx cm = Ok vm ->
  filterOutputFormatMatches op ctx vm = (op1, Throw (unsupported reason)) ->
  reason = "none of the services configured for the collection support "
           +:+ "reformatting to any of the requested formats ["
           +:+ askedFormats op1 ctx +:+ "]" /\
  forOperation st op ctx configs
  = (MkModule (Some match rerunIgnoringSubsetting op1 ctx configs with
                    | Ok (_ :: _) =>
                      "none of the services support the combination of both "
                      +:+ "variable subsetting and any of the requested formats ["
                      +:+ askedFormats op1 ctx +:+ "]"
                    | _ => reason
                    end),
     op1, Ok (noOpSelection op1)).
Proof.
  intros Hreq Hc Hv Hfo.
  assert (Ht : forOperation_try op ctx configs = (op1, Throw (unsupported reason))).
  { unfold forOperation_try. now rewrite Hc, Hv, Hfo. }
  pose proof (forOperation_try_cases op ctx configs) as Hcases.
  rewrite Ht in Hcases. simpl in Hcases.
  inversion Hcases as [Hc'| cm' Hc' Hv'| cm' vm' op' formats Hc' Hv' Hfo' Hfr Htext Hsrc|];
    subst; try congruence.
  pose proof (requestedFormatsText_asked _ _ _ Hfr Htext) as ->.
  split; [reflexivity|].
  unfold forOperation. rewrite Ht. simpl.
  erewrite unsupportedCombinationMessage_format; eauto.
  2:{ erewrite filterCollectionMatches_sources; eauto. }
  rewrite (requiresVariableSubsetting_sources _ _ Hsrc), Hreq.
  destruct (rerunIgnoringSubsetting op1 ctx configs) as [[|c cs]|e] eqn:Hr;
    try reflexivity.
  now apply rerunIgnoringSubsetting_nonempty in Hr.
Qed.

Lemma selectFormat_truthy op ctx configs :
  truthy (outputFormat op) = true -> selectFormat op ctx configs = Ok (outputFormat op).
Proof. intros Ht. unfold selectFormat. now rewrite Ht. Qed.

(** What the format stage does to the operation. *)
Lemma FormatStage_operation op ctx configs op' r :
  FormatStage op ctx configs op' r ->
  sources op' = sources op /\
  (outputFormat op' = outputFormat op \/
   (truthy (outputFormat op) = false /\ truthy (outputFormat op') = true)).
Proof.
  assert (Hset : forall f, selectFormat op ctx configs = Ok (Some f) -> f <> EmptyString ->
            outputFormat (set_outputFormat (Some f) op) = outputFormat op \/
            (truthy (outputFormat op) = false /\
             truthy (outputFormat (set_outputFormat (Some f) op)) = true)).
  { intros f Hsel Hne. destruct (truthy (outputFormat op)) eqn:Ht.
    - left. rewrite (selectFormat_truthy op ctx configs Ht) in Hsel.
      injection Hsel as ->. reflexivity.
    - right. split; [reflexivity|]. now apply truthy_nonempty. }
  inversion 1; subst; auto.
Qed.

(** C5, amended.  [forOperation] leaves the sources of the operation alone
    and writes [operation.outputFormat] only from a falsy value to the
    resolved format.  It writes module state in one case: when the [try]
    block fails it sets the message of the shared [noOpService] object and
    returns that object.  What it returns, and the operation afterwards, do
    not depend on the module state it starts from. *)
Theorem forOperation_frame st op ctx configs :
  let '(st', op', r) := forOperation st op ctx configs in
  sources op' = sources op /\
  (outputFormat op' = outputFormat op \/
   (truthy (outputFormat op) = false /\ truthy (outputFormat op') = true)) /\
  (st' = st \/
   exists diagnostic, st' = MkModule (Some diagnostic) /\ r = Ok (noOpSelection op')) /\
  (forall st2, let '(_, op2, r2) := forOperation st2 op ctx configs in
               op2 = op' /\ r2 = r).
Proof.
  pose proof (forOperation_try_cases op ctx configs) as Hcases.
  destruct (forOperation_try op ctx configs) as [op1 r1] eqn:Ht; simpl in Hcases.
  assert (Hop : sources op1 = sources op /\
                (outputFormat op1 = outputFormat op \/
                 (truthy (outputFormat op) = false /\ truthy (outputFormat op1) = true))).
  { inversion Hcases as [| | cm vm op' formats Hc Hv Hfo|cm vm op' c cs Hc Hv Hfo];
      subst; auto;
      apply (FormatStage_operation op ctx vm op1
               (snd (filterOutputFormatMatches op ctx vm)));
      pose proof (filterOutputFormatMatches_cases op ctx vm) as Hstage;
      now rewrite Hfo in Hstage |- *. }
  destruct Hop as [Hsrc Hout].
  destruct r1 as [service|e1].
  - rewrite (forOperation_selected st _ _ _ _ _ Ht).
    repeat split; auto.
    intros st2. rewrite (forOperation_selected st2 _ _ _ _ _ Ht).
    split; [reflexivity|].
    inversion Hcases; subst. reflexivity.
  - destruct (forOperation_fallback st _ _ _ _ _ Ht) as (diagnostic & Hd & ->).
    repeat split; eauto.
    intros st2.
    destruct (forOperation_fallback st2 _ _ _ _ _ Ht) as (diagnostic2 & Hd2 & ->).
    auto.
Qed.

Lemma supportsFormat_declares configs c pattern :
  wellFormedFormats configs -> In c configs ->
  supportsFormat pattern c = declaresAccepted pattern c.
Proof.
  intros Hwf Hin. unfold supportsFormat, declaresAccepted.
  destruct (List.find _ (output_formats c)) as [e|] eqn:Hfind.
  - apply find_some in Hfind as [He Hacc].
    rewrite truthy_nonempty.
    + symmetry. apply existsb_exists. eauto.
    + intros ->. exact (Hwf c Hin He).
  - simpl. symmetry. apply not_true_is_false. intros Hex.
    apply existsb_exists in Hex as (e & He & Hacc).
    pose proof (find_none _ _ Hfind e He) as Hno. simpl in Hno. congruence.
Qed.

Lemma selectServicesForFormat_declares configs pattern :
  wellFormedFormats configs ->
  selectServicesForFormat pattern configs = List.filter (declaresAccepted pattern) configs.
Proof.
  intros Hwf. unfold selectServicesForFormat. apply filter_ext_in.
  intros c Hin. exact (supportsFormat_declares configs c pattern Hwf Hin).
Qed.

Lemma scanRequested_nonempty configs patterns f :
  wellFormedFormats configs ->
  scanRequested patterns configs = Some f -> f <> EmptyString.
Proof.
  intros Hwf. induction patterns as [|pattern rest IH]; simpl; [discriminate|].
  destruct (List.filter (declaresAccepted pattern) configs) as [|first l] eqn:Hfilter.
  - exact IH.
  - intros Hfind. apply find_some in Hfind as [He _].
    assert (Hin : In first configs).
    { apply (proj1 (filter_In (declaresAccepted pattern) first configs)).
      rewrite Hfilter. now left. }
    intros ->. exact (Hwf first Hin He).
Qed.

(** The loop of [selectFormat] is the scan of the specification. *)
Lemma selectFormat_loop_scan configs patterns (o : option string) :
  wellFormedFormats configs -> truthy o = false ->
  selectFormat_loop patterns configs o
  = from_option Some o (scanRequested patterns configs).
Proof.
  intros Hwf Ho. induction patterns as [|pattern rest IH]; simpl; [reflexivity|].
  rewrite (selectServicesForFormat_declares configs pattern Hwf).
  destruct (List.filter (declaresAccepted pattern) configs) as [|first l] eqn:Hfilter.
  - rewrite Ho. exact IH.
  - assert (Hin : In first (List.filter (declaresAccepted pattern) configs))
      by (rewrite Hfilter; now left).
    apply filter_In in Hin as [Hin Hdecl].
    rewrite <- (supportsFormat_declares configs first pattern Hwf Hin) in Hdecl.
    unfold supportsFormat in Hdecl. rewrite Hdecl.
    apply truthy_Some in Hdecl as (f & -> & _). reflexivity.
Qed.

Lemma filterOutputFormatMatches_resolved op ctx configs f :
  wellFormedFormats configs ->
  formatRequested op ctx = true ->
  selectFormat op ctx configs = Ok (Some f) -> f <> EmptyString ->
  filterOutputFormatMatches op ctx configs = resolvedWith op configs f.
Proof.
  intros Hwf Hreq Hsel Hne. unfold filterOutputFormatMatches, resolvedWith.
  fold (formatRequested op ctx). rewrite Hreq, Hsel, (truthy_nonempty f Hne). simpl.
  rewrite (selectServicesForFormat_declares configs f Hwf).
  destruct (List.filter (declaresAccepted f) configs); [|reflexivity].
  unfold requestedFormatsText. simpl. destruct f; [congruence | reflexivity].
Qed.

(** C3, amended.  In the format stage, over configurations that declare no
    empty format: an output format already set on the operation is the
    resolved format, and the requested patterns are not scanned; with no
    output format set and requested patterns, the patterns are scanned in
    order as the specification says.  The resolved format is written onto the
    operation and the configurations are filtered to those that support it;
    when the scan finds no format, nothing is written and the stage fails. *)
Theorem format_stage_resolution op ctx configs :
  wellFormedFormats configs ->
  (forall f, outputFormat op = Some f -> f <> EmptyString ->
     filterOutputFormatMatches op ctx configs = resolvedWith op configs f) /\
  (forall patterns,
     truthy (outputFormat op) = false ->
     ctx = Some (MkContext (Some patterns)) -> patterns <> [] ->
     filterOutputFormatMatches op ctx configs
     = match scanRequested patterns configs with
       | Some f => resolvedWith op configs f
       | None => (op, Throw (unsupported (reformattingMessage (join_commas patterns))))
       end).
Proof.
  intros Hwf. split.
  - intros f Hf Hne.
    assert (Ht : truthy (outputFormat op) = true)
      by (rewrite Hf; now apply truthy_nonempty).
    apply filterOutputFormatMatches_resolved; auto.
    + unfold formatRequested. now rewrite Ht.
    + rewrite <- Hf. now apply selectFormat_truthy.
  - intros patterns Ho -> Hne.
    destruct patterns as [|m ms]; [congruence|].
    assert (Hreq : formatRequested op (Some (MkContext (Some (m :: ms)))) = true)
      by (unfold formatRequested; simpl; apply orb_true_r).
    assert (Hsel : selectFormat op (Some (MkContext (Some (m :: ms)))) configs
                   = Ok (from_option Some (outputFormat op)
                           (scanRequested (m :: ms) configs))).
    { unfold selectFormat. rewrite Ho. cbn [requestedMimeTypes].
      now rewrite (selectFormat_loop_scan configs (m :: ms) _ Hwf Ho). }
    destruct (scanRequested (m :: ms) configs) as [f|] eqn:Hscan.
    + apply filterOutputFormatMatches_resolved; auto.
      exact (scanRequested_nonempty configs _ f Hwf Hscan).
    + unfold filterOutputFormatMatches. fold (formatRequested op (Some (MkContext (Some (m :: ms))))).
      rewrite Hreq, Hsel. simpl. rewrite Ho. simpl.
      unfold requestedFormatsText.
      destruct (outputFormat op) as [[|a s]|]; simpl in *; try discriminate; reflexivity.
Qed.

Lemma scanRequested_origin configs patterns f :
  scanRequested patterns configs = Some f ->
  exists c, In c configs /\ In f (output_formats c).
Proof.
  induction patterns as [|pattern rest IH]; simpl; [discriminate|].
  destruct (List.filter (declaresAccepted pattern) configs) as [|first l] eqn:Hfilter.
  - exact IH.
  - intros Hfind. apply find_some in Hfind as [He _].
    exists first. split; [|exact He].
    apply (proj1 (filter_In (declaresAccepted pattern) first configs)).
    rewrite Hfilter. now left.
Qed.

(** When every format accepts itself and no configuration declares the empty
    format, a format stage that fails leaves the operation as it found it:
    the operation of the diagnosis is the operation of the caller. *)
Lemma failed_format_stage_keeps_operation op ctx configs op1 e :
  (forall f, isMimeTypeAccepted f f = true) ->
  wellFormedFormats configs ->
  filterOutputFormatMatches op ctx configs = (op1, Throw e) ->
  op1 = op.
Proof.
  intros Hrefl Hwf Hfo.
  pose proof (filterOutputFormatMatches_cases op ctx configs) as Hcases.
  rewrite Hfo in Hcases. simpl in Hcases.
  inversion Hcases as [| | |f formats Hreq Hsel Hne Hnone Htext|]; subst; try reflexivity.
  destruct (truthy (outputFormat op)) eqn:Ht.
  - rewrite (selectFormat_truthy op ctx configs Ht) in Hsel.
    injection Hsel as Hsel. destruct op; simpl in *. now subst.
  - exfalso. unfold selectFormat in Hsel. rewrite Ht in Hsel.
    assert (Hfalsy : outputFormat op <> Some f).
    { intros Heq. rewrite Heq, (truthy_nonempty f Hne) in Ht. discriminate. }
    destruct ctx as [c|]; [|discriminate].
    destruct (requestedMimeTypes c) as [[|m ms]|]; try congruence.
    rewrite (selectFormat_loop_scan configs (m :: ms) _ Hwf Ht) in Hsel.
    destruct (scanRequested (m :: ms) configs) as [f'|] eqn:Hscan;
      simpl in Hsel; [|congruence].
    injection Hsel as ->.
    destruct (scanRequested_origin configs _ f Hscan) as (c0 & Hin & Hf).
    assert (Hkept : In c0 (selectServicesForFormat f configs)).
    { unfold selectServicesForFormat. apply filter_In. split; [exact Hin|].
      fold (supportsFormat f c0).
      rewrite (supportsFormat_declares configs c0 f Hwf Hin).
      apply existsb_exists. eauto. }
    now rewrite Hnone in Hkept.
Qed.

End WithMimeNegotiation.

End RouterFacts.

(** ** The router on sample inputs *)

Module RouterExamples.
Import JS Router RouterSpec RouterFacts RouterSamples.

#[local] Existing Instance Mime.wildcard.

(** A wildcard pattern is resolved to the first format it accepts, and the
    service that declares it is selected. *)
Example wildcard_is_resolved :
  forOperation initial plainOperation (requested ["text/csv"; "image/*"])
    [tiffService; pngService]
  = (initial, set_outputFormat (Some "image/tiff") plainOperation,
     Ok {| service_class := LocalDockerService;
           service_config := ConfigRef tiffService;
           service_operation := set_outputFormat (Some "image/tiff") plainOperation |}).
Proof. reflexivity. Qed.

(** The messages of the first two stages. *)
Example no_collection_message :
  forOperation initial plainOperation None []
  = (MkModule (Some "no services are configured for the collection"),
     plainOperation, Ok (noOpSelection plainOperation)).
Proof. reflexivity. Qed.

Example no_subsetting_message :
  forOperation initial variableOperation None [pngService]
  = (MkModule (Some ("none of the services configured for the collection "
                     +:+ "support variable subsetting")),
     variableOperation, Ok (noOpSelection variableOperation)).
Proof. reflexivity. Qed.

(** C1, counterexample.  The operation asks for [image/png] and the only
    service of its collection writes [image/tiff]: [forOperation] returns
    the no-op service with [operation.outputFormat] still [image/png], and
    no output format of the no-op service is accepted by it. *)
Lemma noOp_not_consistent_with_outputFormat :
  let '(st', op', r) := forOperation initial pngOperation None [tiffService] in
  r = Ok (noOpSelection op') /\
  outputFormat op' = Some "image/png" /\
  ~ exists e, In e (output_formats (deref st' NoOpRef)) /\
              isMimeTypeAccepted e "image/png" = true.
Proof.
  vm_compute. repeat split.
  intros (e & [<-|[]] & Hacc). discriminate.
Qed.

(** C3, counterexample.  With [image/png] already set on the operation and
    [image/tiff] requested, the scan of the requested patterns would resolve
    [image/tiff]; the format stage keeps [image/png]. *)
Lemma preset_outputFormat_is_not_scanned :
  scanRequested ["image/tiff"] [tiffPngService] = Some "image/tiff" /\
  filterOutputFormatMatches pngOperation (requested ["image/tiff"]) [tiffPngService]
  = (pngOperation, Ok [tiffPngService]) /\
  outputFormat (fst (filterOutputFormatMatches pngOperation (requested ["image/tiff"])
                       [tiffPngService]))
  <> scanRequested ["image/tiff"] [tiffPngService].
Proof. vm_compute. repeat split. discriminate. Qed.

(** C3, witness: the scan resolves [image/*] to [image/png], the first format
    of the first service that the pattern keeps. *)
Lemma format_stage_resolution_witness :
  wellFormedFormats [pngService; tiffPngService] /\
  (forall f, outputFormat plainOperation = Some f -> f <> EmptyString ->
     filterOutputFormatMatches plainOperation (requested ["text/csv"; "image/*"])
       [pngService; tiffPngService]
     = resolvedWith plainOperation [pngService; tiffPngService] f) /\
  (forall patterns,
     truthy (outputFormat plainOperation) = false ->
     requested ["text/csv"; "image/*"] = Some (MkContext (Some patterns)) ->
     patterns <> [] ->
     filterOutputFormatMatches plainOperation (requested ["text/csv"; "image/*"])
       [pngService; tiffPngService]
     = match scanRequested patterns [pngService; tiffPngService] with
       | Some f => resolvedWith plainOperation [pngService; tiffPngService] f
       | None => (plainOperation,
                  Throw (unsupported (reformattingMessage (join_commas patterns))))
       end).
Proof.
  assert (Hwf : wellFormedFormats [pngService; tiffPngService]).
  { intros c [<-|[<-|[]]]; simpl; intuition discriminate. }
  split; [exact Hwf|].
  exact (format_stage_resolution plainOperation (requested ["text/csv"; "image/*"])
           [pngService; tiffPngService] Hwf).
Defined.

(** C4, witness: one service writes [image/png] and cannot subset by
    variable, the other subsets by variable and writes [image/tiff]; the
    message names both constraints. *)
Lemma combination_diagnosis_witness :
  requiresVariableSubsetting variableOperation = true /\
  filterCollectionMatches variableOperation (requested ["image/png"])
    [pngService; tiffService] = Ok [pngService; tiffService] /\
  filterVariableSubsettingMatches variableOperation (requested ["image/png"])
    [pngService; tiffService] = Ok [tiffService] /\
  filterOutputFormatMatches variableOperation (requested ["image/png"]) [tiffService]
  = (variableOperation,
     Throw (unsupported ("none of the services configured for the collection support "
                         +:+ "reformatting to any of the requested formats [image/png]"))) /\
  forOperation initial variableOperation (requested ["image/png"])
    [pngService; tiffService]
  = (MkModule (Some ("none of the services support the combination of both variable "
                     +:+ "subsetting and any of the requested formats [image/png]")),
     variableOperation, Ok (noOpSelection variableOperation)).
Proof.
  do 4 (split; [reflexivity|]).
  exact (proj2 (combination_diagnosis initial variableOperation (requested ["image/png"])
                  [pngService; tiffService] [pngService; tiffService] [tiffService]
                  variableOperation
                  ("none of the services configured for the collection support "
                   +:+ "reformatting to any of the requested formats [image/png]")
                  eq_refl eq_refl eq_refl eq_refl)).
Defined.

(** When no service writes the format at all, the reason of the format stage
    is kept. *)
Example format_reason_is_kept :
  fst (fst (forOperation initial variableOperation (requested ["image/gif"])
              [pngService; tiffService]))
  = MkModule (Some ("none of the services configured for the collection support "
                    +:+ "reformatting to any of the requested formats [image/gif]")).
Proof. reflexivity. Qed.


(** A type name that is the name of no property gives the [NotFoundError],
    and the type name [constructor] gives no error at all: the configuration
    is passed to [Object]. *)
Example unknown_kind_is_not_found :
  exn_class <$> (match snd (forOperation initial plainOperation None [unknownKindService]) with
                 | Throw e => Some e
                 | Ok _ => None
                 end)
  = Some NotFoundError.
Proof. reflexivity. Qed.

Example constructor_kind_is_built :
  snd (forOperation initial plainOperation None [constructorKindService])
  = Ok {| service_class := ObjectConstructor;
          service_config := ConfigRef constructorKindService;
          service_operation := plainOperation |}.
Proof. reflexivity. Qed.

(** C5, counterexample.  A call that falls back to the no-op service changes
    module state: the message of [noOpService] is written. *)
Lemma noOp_message_is_written :
  fst (fst (forOperation initial pngOperation None [tiffService])) <> initial /\
  noOpService_message (fst (fst (forOperation initial pngOperation None [tiffService])))
  = Some ("none of the services configured for the collection support "
          +:+ "reformatting to any of the requested formats [image/png]").
Proof. vm_compute. split; [discriminate | reflexivity]. Qed.

(** The no-op service that a first call returned reads differently after a
    second call: both hold the one shared object. *)
Example noOp_message_is_shared :
  let '(st1, _, r1) := forOperation initial pngOperation None [tiffService] in
  let '(st2, _, r2) := forOperation st1 plainOperation None [] in
  r1 = Ok (noOpSelection pngOperation) /\
  r2 = Ok (noOpSelection plainOperation) /\
  message (deref st1 NoOpRef) <> message (deref st2 NoOpRef).
Proof. vm_compute. repeat split. discriminate. Qed.

End RouterExamples.

(** ** The callback handler *)

Module CallbackFacts.
Import JS JSFacts Job ServiceResponse CallbackSpec.

Section WithRuntime.
Context `{JSRuntime}.

Implicit Types (job : Job) (q : CallbackQuery) (it : CallbackQueryItem)
  (req : Request) (w : World) (env : Collaborators).

(** [linkOfItem] validates the bounding box first and the temporal range
    second, and builds the link from what they parse to. *)
Lemma linkOfItem_expected it :
  linkOfItem it
  = match expected parsedBbox (bbox it), expected parsedTemporal (temporal it) with
    | Some bb, Some range => Ok (storedLink it bb range)
    | None, _ => Throw bboxError
    | Some _, None => Throw temporalError
    end.
Proof.
  unfold linkOfItem, expected, parsedBbox, parsedTemporal.
  destruct (bbox it) as [[|c s]|]; destruct (temporal it) as [[|c' s']|];
    cbn [truthy from_option id]; try reflexivity;
    repeat match goal with
           | |- context [allSome ?l] =>
             let o := fresh "o" in
             generalize (allSome l); intros o;
             destruct o as [[|? [|? [|? [|? [|? ?]]]]]|]
           end;
    reflexivity.
Qed.

(** After the link of the item is added, [updateJobFields] only appends to
    the links of the job. *)
Lemma updateJobFields_try_links job q it link :
  item q = Some it -> linkOfItem it = Ok link ->
  exists rest,
    links (fst (updateJobFields_try job q)) = links job ++ link :: rest.
Proof.
  intros Hit Hlink. unfold updateJobFields_try. rewrite Hit, Hlink.
  destruct (ServiceResponse.progress q) as [[|c p]|];
    try destruct (JSNumber.unaryPlus_isNaN (String c p));
    destruct (error q) as [[|c1 e1]|];
    destruct (ServiceResponse.status q) as [[|c2 s2]|];
    try (unfold updateStatus; destruct (statusOfString (String c2 s2)));
    destruct (redirect q) as [[|c3 r3]|];
    simpl; eexists; rewrite <- ?app_assoc; reflexivity.
Qed.

Lemma updateJobFields_fst_snd logger job q :
  snd (fst (updateJobFields logger job q)) = fst (updateJobFields_try job q).
Proof.
  unfold updateJobFields. now destruct (updateJobFields_try job q) as [job' [[]|e]].
Qed.

(** A link that fails validation: [updateJobFields] throws a validation
    error and leaves the job as it was. *)
Lemma updateJobFields_invalid_item logger job q it e :
  item q = Some it -> linkOfItem it = Throw e -> exn_class e = TypeError ->
  updateJobFields logger job q
  = (logger ++ [LogError (exn_message e)], job, Throw (validationError e)).
Proof.
  intros Hit Hlink Hclass. unfold updateJobFields, updateJobFields_try.
  now rewrite Hit, Hlink, Hclass.
Qed.

(** C8, amended.  For a callback item, [updateJobFields] handles the
    bounding box and the temporal range as follows; a field that is the empty
    string counts as absent.  When the bounding box is carried and does not
    split on commas into exactly 4 parts that [parseFloat] reads, or else
    the temporal range is carried and does not split into exactly 2 parts that
    [Date.parse] reads, it throws a validation error, whose code is 400, and
    the job is as before.  Otherwise it adds a link to the job whose
    bounding box is the 4 parsed floats, whose temporal range is the two
    timestamps in ISO format, and whose relation is [data] when the item has
    none. *)
Theorem updateJobFields_validates_item logger job it error redirect status progress :
  let q := MkQuery (Some it) error redirect status progress in
  match expected parsedBbox (bbox it), expected parsedTemporal (temporal it) with
  | Some bb, Some range =>
    (exists rest,
       links (snd (fst (updateJobFields logger job q)))
       = links job ++ storedLink it bb range :: rest) /\
    (truthy (rel it) = false -> link_rel (storedLink it bb range) = Some "data")
  | None, _ =>
    updateJobFields logger job q
    = (logger ++ [LogError (exn_message bboxError)], job,
       Throw (validationError bboxError))
  | Some _, None =>
    updateJobFields logger job q
    = (logger ++ [LogError (exn_message temporalError)], job,
       Throw (validationError temporalError))
  end /\
  errorCode (exn_class (validationError bboxError)) = Some 400%Z /\
  errorCode (exn_class (validationError temporalError)) = Some 400%Z.
Proof.
  intros q. split; [|split; reflexivity].
  pose proof (linkOfItem_expected it) as Hlink.
  destruct (expected parsedBbox (bbox it)) as [bb|].
  - destruct (expected parsedTemporal (temporal it)) as [range|].
    + split.
      * rewrite updateJobFields_fst_snd.
        now apply (updateJobFields_try_links job q it).
      * unfold storedLink. simpl. now intros ->.
    + now apply (updateJobFields_invalid_item logger job q it).
  - now apply (updateJobFields_invalid_item logger job q it).
Qed.

(** C7.  A callback whose request id matches no persisted job: the handler
    rolls the transaction back, answers 404 with a code and a message, and
    leaves the persisted jobs and the object store as they were. *)
Theorem unknown_request_is_404 env req w :
  jobs w !! requestId req = None ->
  let '(w', res) := responseHandler env req w in
  res = errorResponse 404 "could not find a job with the given ID" /\
  trx w' = TrxRolledBack /\
  trx_writes w' = ∅ /\
  jobs w' = jobs w /\
  objectStore w' = objectStore w.
Proof.
  intros Hnone. unfold responseHandler, byRequestId. simpl.
  rewrite Hnone. simpl. auto.
Qed.

(** What the handler does once the [try] block has thrown. *)
Lemma responseHandler_caught env req w job w1 job1 e :
  jobs w !! requestId req = Some job ->
  responseHandler_try env job req (transaction w) = (w1, job1, Throw e) ->
  jobs w1 = jobs w -> 
  let '(w', res) := responseHandler env req w in
  res = errorResponse (statusOfError e) (exn_message e) /\
  trx w' = TrxRolledBack /\
  jobs w' = jobs w /\
  objectStore w' = objectStore w1.
Proof.
  intros Hjob Htry Hjobs. unfold responseHandler, byRequestId.
  change (jobs (transaction w)) with (jobs w). rewrite Hjob, Htry.
  destruct (isComplete job1); simpl; auto.
Qed.

(** C10.  A callback with a file body for a job that has no link with
    relation [s3-access]: reading the first such link throws a [TypeError]
    inside the [try] block, so the handler rolls the transaction back and
    answers 400; nothing is staged and no job changes. *)
Theorem missing_staging_link_is_400 env req w job :
  jobs w !! requestId req = Some job ->
  hasFileBody req = true ->
  getRelatedLinks job "s3-access" = [] ->
  let '(w', res) := responseHandler env req w in
  res_status res = Some 400%Z /\
  (exists msg, res_body res = Some (JsonBody 400 msg)) /\
  trx w' = TrxRolledBack /\
  jobs w' = jobs w /\
  objectStore w' = objectStore w.
Proof.
  intros Hjob Hbody Hlinks.
  pose proof (responseHandler_caught env req w job (transaction w) job
                (MkExn TypeError "Cannot read properties of undefined (reading 'href')")
                Hjob) as Hcaught.
  destruct (responseHandler env req w) as [w' res].
  destruct Hcaught as (-> & Htrx & Hjobs & Hstore).
  - unfold responseHandler_try, stageBody. now rewrite Hbody, Hlinks.
  - reflexivity.
  - simpl. eauto 10.
Qed.

Lemma itemValid_linkOfItem it :
  itemValid it = true -> exists link, linkOfItem it = Ok link.
Proof.
  unfold itemValid. intros Hv. apply andb_prop in Hv as [Hb Ht].
  apply bool_decide_eq_true in Hb as [bb Hb].
  apply bool_decide_eq_true in Ht as [range Ht].
  rewrite linkOfItem_expected, Hb, Ht. eauto.
Qed.

(** Valid fields with no error and the status [successful]: the job ends up
    [successful]. *)
Lemma updateJobFields_successful logger job q :
  fieldsValid q = true ->
  truthy (error q) = false ->
  ServiceResponse.status q = Some "successful" ->
  exists job',
    updateJobFields logger job q = (logger, job', Ok ()) /\
    Job.status job' = successful.
Proof.
  unfold fieldsValid. intros Hv He Hs. apply andb_prop in Hv as [Hi Hp].
  unfold updateJobFields, updateJobFields_try. rewrite Hs.
  destruct (item q) as [it|]; simpl in Hi.
  - destruct (itemValid_linkOfItem it Hi) as [link ->].
    destruct (ServiceResponse.progress q) as [[|c p]|]; simpl in Hp;
      try (apply negb_true_iff in Hp; rewrite Hp);
      destruct (error q) as [[|c1 e1]|]; try discriminate;
      simpl; eexists; split; reflexivity.
  - destruct (ServiceResponse.progress q) as [[|c p]|]; simpl in Hp;
      try (apply negb_true_iff in Hp; rewrite Hp);
      destruct (error q) as [[|c1 e1]|]; try discriminate;
      simpl; eexists; split; reflexivity.
Qed.

(** The overrides of a staged body keep valid fields valid. *)
Lemma merge_staged_valid q (itemHref : string) (itemType st : option string) :
  fieldsValid q = true ->
  fieldsValid
    (merge q {| item := Some {| href := Some itemHref; type := itemType; rel := None;
                                title := None; temporal := None; bbox := None |};
                error := None; redirect := None; status := st; progress := None |})
  = true.
Proof.
  unfold fieldsValid, merge. simpl. intros Hv.
  apply andb_prop in Hv as [Hi Hp]. rewrite Hp, andb_true_r.
  destruct (item q) as [it|]; simpl in *; [exact Hi | reflexivity].
Qed.

(** C6, amended.  A callback with a file body on a synchronous job, when
    the job has a staging link, a file name is sent, the fields of the
    callback pass validation and neither the object store nor the database
    fails: the handler stages the body under the staging location and the
    file name, commits, answers 200, and the persisted job is [successful],
    whatever [status] the callback carried. *)
Theorem synchronous_file_body_completes_job env req w job link0 others filename :
  jobs w !! requestId req = Some job ->
  isAsync job = false ->
  hasFileBody req = true ->
  getRelatedLinks job "s3-access" = link0 :: others ->
  bodyFilename req = Some filename -> filename <> EmptyString ->
  fieldsValid (query req) = true ->
  (forall u, upload_error env u = None) ->
  (forall j, save_error env j = None) ->
  commit_error env = None ->
  let '(w', res) := responseHandler env req w in
  res = okResponse /\
  objectStore w' = objectStore w ++ [stagedUpload req (link_href link0) filename] /\
  trx w' = TrxCommitted /\
  exists job', jobs w' !! requestId req = Some job' /\ Job.status job' = successful.
Proof.
  intros Hjob Hsync Hbody Hlinks Hname Hne Hvalid Hup Hsave Hcommit.
  unfold responseHandler, byRequestId.
  change (jobs (transaction w)) with (jobs w). rewrite Hjob.
  unfold responseHandler_try, stageBody.
  rewrite Hbody, Hlinks, Hname.
  destruct filename as [|c f]; [congruence|].
  rewrite Hup, Hsync.
  assert (Herr : truthy (error (query req)) = false).
  { unfold hasFileBody in Hbody.
    apply andb_prop in Hbody as [Hbody _]. apply andb_prop in Hbody as [Hbody _].
    apply andb_prop in Hbody as [_ Hbody]. now apply negb_true_iff in Hbody. }
  match goal with
  | |- context [updateJobFields ?l job ?q] =>
    destruct (updateJobFields_successful l job q) as (job' & Hupd & Hstatus)
  end.
  - now apply merge_staged_valid.
  - unfold merge. simpl. now destruct (error (query req)).
  - reflexivity.
  - rewrite Hupd, Hsave, Hcommit.
    assert (Hlookup : (<[requestId req := job']> (∅ : gmap string Job) ∪ jobs w)
                        !! requestId req = Some job').
    { apply lookup_union_Some_l. apply lookup_insert_eq. }
    destruct (isComplete job'); simpl; repeat split; eauto.
Qed.



End WithRuntime.

End CallbackFacts.

(** ** The callback handler on sample inputs *)

Module CallbackExamples.
Import JS Job ServiceResponse CallbackSpec CallbackFacts CallbackSamples.

#[local] Existing Instance Reference.runtime.

(** C6, counterexample.  A callback with a file body on a synchronous job,
    with no [item.href] and no [error], that sends no file name: the handler
    answers 400, stages nothing, and the job is still [running]. *)
Lemma file_body_without_filename_is_rejected :
  jobs world0 !! requestId noFilenameRequest = Some syncJob /\
  isAsync syncJob = false /\
  hasFileBody noFilenameRequest = true /\
  res_status (snd (responseHandler reliable noFilenameRequest world0)) = Some 400%Z /\
  objectStore (fst (responseHandler reliable noFilenameRequest world0)) = [] /\
  Job.status <$> jobs (fst (responseHandler reliable noFilenameRequest world0))
                   !! requestId noFilenameRequest
  = Some running.
Proof.
  repeat (split; [reflexivity|]). reflexivity.
Qed.

(** C6, witness: the body of [fileRequest] is staged as [out.nc] and the job
    of [req-1] becomes [successful]. *)
Lemma synchronous_file_body_witness :
  jobs world0 !! requestId fileRequest = Some syncJob /\
  isAsync syncJob = false /\
  hasFileBody fileRequest = true /\
  getRelatedLinks syncJob "s3-access" = [stagingLink] /\
  bodyFilename fileRequest = Some "out.nc" /\
  "out.nc" <> EmptyString /\
  fieldsValid (query fileRequest) = true /\
  (forall u, upload_error reliable u = None) /\
  (forall j, save_error reliable j = None) /\
  commit_error reliable = None /\
  let '(w', res) := responseHandler reliable fileRequest world0 in
  res = okResponse /\
  objectStore w'
  = objectStore world0 ++ [stagedUpload fileRequest (link_href stagingLink) "out.nc"] /\
  trx w' = TrxCommitted /\
  exists job', jobs w' !! requestId fileRequest = Some job' /\
               Job.status job' = successful.
Proof.
  repeat (split; [first [reflexivity | discriminate]|]).
  apply (synchronous_file_body_completes_job reliable fileRequest world0 syncJob
           stagingLink [] "out.nc");
    first [reflexivity | discriminate].
Defined.

(** The body of the witness above is staged under the staging location of
    the job. *)
Example staged_under_staging_location :
  objectStore (fst (responseHandler reliable fileRequest world0))
  = [{| upload_href := "s3://staging/req-1/out.nc";
        upload_length := "1024";
        upload_type := Some "application/x-netcdf" |}].
Proof. reflexivity. Qed.

(** C7, witness: no job has the request id [req-9]. *)
Lemma unknown_request_witness :
  jobs world0 !! requestId unknownRequest = None /\
  let '(w', res) := responseHandler reliable unknownRequest world0 in
  res = errorResponse 404 "could not find a job with the given ID" /\
  trx w' = TrxRolledBack /\
  trx_writes w' = ∅ /\
  jobs w' = jobs world0 /\
  objectStore w' = objectStore world0.
Proof.
  split; [reflexivity|].
  apply (unknown_request_is_404 reliable unknownRequest world0). reflexivity.
Defined.

(** C10, witness: the job of [req-2] has no link at all. *)
Lemma missing_staging_link_witness :
  jobs world0 !! requestId bareFileRequest = Some bareJob /\
  hasFileBody bareFileRequest = true /\
  getRelatedLinks bareJob "s3-access" = [] /\
  let '(w', res) := responseHandler reliable bareFileRequest world0 in
  res_status res = Some 400%Z /\
  (exists msg, res_body res = Some (JsonBody 400 msg)) /\
  trx w' = TrxRolledBack /\
  jobs w' = jobs world0 /\
  objectStore w' = objectStore world0.
Proof.
  repeat (split; [reflexivity|]).
  apply (missing_staging_link_is_400 reliable bareFileRequest world0 bareJob);
    reflexivity.
Defined.

(** The examples of the specification for links. *)
Example bbox_of_four_floats :
  link_bbox <$> links (snd (fst (updateJobFields [] bareJob
                                   (itemQuery (itemWith (Some "10,20,30,40") None)))))
  = [Some [Reference.Finite 10 0; Reference.Finite 20 0;
           Reference.Finite 30 0; Reference.Finite 40 0]].
Proof. reflexivity. Qed.

Example bbox_of_three_floats :
  snd (updateJobFields [] bareJob (itemQuery (itemWith (Some "10,20,30") None)))
  = Throw (validationError bboxError).
Proof. reflexivity. Qed.

Example temporal_of_two_dates :
  link_temporal <$> links (snd (fst (updateJobFields [] bareJob
      (itemQuery (itemWith None (Some "2020-01-01T00:00:00Z,2020-01-02T00:00:00Z"))))))
  = [Some ("2020-01-01T00:00:00.000Z", "2020-01-02T00:00:00.000Z")].
Proof. reflexivity. Qed.

Example temporal_of_one_date :
  snd (updateJobFields [] bareJob
         (itemQuery (itemWith None (Some "2020-01-01T00:00:00Z"))))
  = Throw (validationError temporalError).
Proof. reflexivity. Qed.

(** C8, counterexample.  An item that carries the empty string as its
    bounding box: the string does not split into 4 parts, and yet
    [updateJobFields] throws nothing and adds a link with no bounding box. *)
Lemma empty_bbox_is_not_validated :
  length (split_commas EmptyString) <> 4 /\
  updateJobFields [] bareJob (itemQuery (itemWith (Some EmptyString) None))
  = ([], addLink bareJob (storedLink (itemWith (Some EmptyString) None) None None), Ok ()).
Proof. split; [discriminate | reflexivity]. Qed.





(** What becomes of the progress [150] rests on [job.save]: a save that
    validates makes the handler answer 400 and persist nothing, and a save
    that accepts every job makes it answer 200 and persist the progress. *)
Example progress_above_100_and_save :
  res_status (snd (responseHandler validating (progressRequest "150") world0))
  = Some 400%Z /\
  Job.progress <$> jobs (fst (responseHandler validating (progressRequest "150") world0))
                     !! "req-1"
  = Some (Some 0%Z) /\
  snd (responseHandler reliable (progressRequest "150") world0) = okResponse /\
  Job.progress <$> jobs (fst (responseHandler reliable (progressRequest "150") world0))
                     !! "req-1"
  = Some (Some 150%Z).
Proof. repeat (split; [reflexivity|]). reflexivity. Qed.

(** Other strings that are numbers for the unary plus and that [parseInt]
    reads differently: the stored progress is negative, or [NaN]. *)
Example progress_below_0_or_NaN :
  Job.progress (snd (fst (updateJobFields [] syncJob (query (progressRequest "-5")))))
  = Some (-5)%Z /\
  Job.progress (snd (fst (updateJobFields [] syncJob (query (progressRequest " ")))))
  = None /\
  Job.progress (snd (fst (updateJobFields [] syncJob (query (progressRequest "Infinity")))))
  = None.
Proof. repeat split. Qed.

(** The examples of the specification for progress. *)
Example progress_50_and_abc :
  Job.progress (snd (fst (updateJobFields [] syncJob (query (progressRequest "50")))))
  = Some 50%Z /\
  exists msg,
    snd (updateJobFields [] syncJob (query (progressRequest "abc")))
    = Throw (MkExn RequestValidationError msg).
Proof. split; [reflexivity | eexists; reflexivity]. Qed.

End CallbackExamples.

(** * Further properties *)

(** ** The operation router *)

Module RouterMore.
Import JS JSFacts Router RouterSpec RouterFacts RouterMoreSpec.

Section WithMimeNegotiation.
Context `{MimeNegotiation}.

Implicit Types (op : Operation) (ctx : option RoutingContext)
  (configs : list ServiceConfig) (st : ModuleState).

Lemma head_filter {A} (p : A -> bool) (l : list A) :
  head (List.filter p l) = List.find p l.
Proof.
  induction l as [|a l IH]; simpl; [reflexivity|].
  destruct (p a); [reflexivity | exact IH].
Qed.

Lemma filter_filter {A} (p q : A -> bool) (l : list A) :
  List.filter q (List.filter p l) = List.filter (fun a => p a && q a) l.
Proof.
  induction l as [|a l IH]; simpl; [reflexivity|].
  destruct (p a); simpl; [destruct (q a)|]; now rewrite IH.
Qed.

Lemma filter_all {A} (l : list A) : List.filter (fun _ => true) l = l.
Proof. induction l as [|a l IH]; simpl; [reflexivity | now rewrite IH]. Qed.

Lemma filter_none {A} (p : A -> bool) (l : list A) :
  (forall a, In a l -> p a = false) -> List.filter p l = [].
Proof.
  induction l as [|a l IH]; simpl; intros Hall; [reflexivity|].
  rewrite (Hall a) by now left. apply IH. intros b Hb. apply Hall. now right.
Qed.

(** The first two stages as one filter. *)
Lemma first_stages_filter op ctx configs cm vm :
  filterCollectionMatches op ctx configs = Ok cm ->
  filterVariableSubsettingMatches op ctx cm = Ok vm ->
  vm = List.filter (fun c => isCollectionMatch op c
                             && (negb (requiresVariableSubsetting op)
                                 || subsetting_variable c)) configs.
Proof.
  intros Hc Hv.
  apply filterCollectionMatches_Ok in Hc as [-> _].
  apply filterVariableSubsettingMatches_Ok in Hv as [-> _].
  destruct (requiresVariableSubsetting op); simpl.
  - unfold supportsVariableSubsetting. apply filter_filter.
  - apply filter_ext. intros c. now rewrite andb_true_r.
Qed.

(** The format stage as a filter, when it succeeds. *)
Lemma FormatStage_filter op ctx vm op' services :
  FormatStage op ctx vm op' (Ok services) ->
  services
  = List.filter (fun c => negb (formatRequested op ctx)
                          || supportsFormat (default EmptyString (outputFormat op')) c) vm.
Proof.
  inversion 1 as [c0 cs0 Hreq Hcs| |f c0 cs0 Hreq Hsel Hne Hsup| |]; subst.
  - rewrite Hreq. simpl. now rewrite filter_all.
  - rewrite Hreq. simpl. symmetry. exact Hsup.
Qed.

Lemma forOperation_finds_eligible st op ctx configs :
  let '(st', op', r) := forOperation st op ctx configs in
  forall s c, r = Ok s -> service_config s = ConfigRef c ->
    List.find (eligible op ctx op') configs = Some c.
Proof.
  pose proof (forOperation_try_cases op ctx configs) as Hcases.
  destruct (forOperation_try op ctx configs) as [op1 [service|e1]] eqn:Ht; simpl in *.
  - rewrite (forOperation_selected st _ _ _ _ _ Ht).
    intros s c Hs Hcfg.
    inversion Hcases as [| | |cm vm op2 c' cs Hc Hv Hfo Hstage]; subst.
    pose proof (buildService_config st (ConfigRef c') op1) as Hb.
    rewrite Hs in Hb. destruct Hb as [Hcfg' _].
    rewrite Hcfg in Hcfg'. injection Hcfg' as ->.
    pose proof (first_stages_filter _ _ _ _ _ Hc Hv) as Hvm.
    apply FormatStage_filter in Hstage.
    rewrite Hvm, filter_filter in Hstage.
    rewrite <- head_filter. unfold eligible. now rewrite <- Hstage.
  - destruct (forOperation_fallback st _ _ _ _ _ Ht) as (diagnostic & _ & ->).
    intros s c [= <-]. discriminate.
Qed.

(** X1.  The configuration that [forOperation] selects is the first one of
    the list, in its order, that passes all three stages. *)
Theorem selection_is_first_eligible st op ctx configs :
  let '(st', op', r) := forOperation st op ctx configs in
  forall s c, r = Ok s -> service_config s = ConfigRef c ->
    List.find (eligible op ctx op') configs = Some c.
Proof. exact (forOperation_finds_eligible st op ctx configs). Qed.

Lemma forOperation_collection_failure st op ctx configs :
  List.filter (isCollectionMatch op) configs = [] ->
  forOperation st op ctx configs
  = fallback "no services are configured for the collection" op.
Proof.
  intros Hnone. unfold forOperation, forOperation_try, filterCollectionMatches.
  rewrite Hnone. cbn [exn_class exn_message unsupported].
  now rewrite unsupportedCombinationMessage_other.
Qed.

(** X2.  When no configuration covers all the collections of the operation
    (in particular when the list is empty), [forOperation] returns the no-op
    service with the message that no services are configured for the
    collection, and leaves the operation as it was. *)
Theorem uncovered_collection_falls_back st op ctx configs :
  (forall c, In c configs -> isCollectionMatch op c = false) ->
  forOperation st op ctx configs
  = fallback "no services are configured for the collection" op.
Proof.
  intros Hall. apply forOperation_collection_failure. now apply filter_none.
Qed.

(** X3.  When the operation requires variable subsetting, some
    configuration covers its collections, and none of those that do can
    subset by variable, [forOperation] returns the no-op service with the
    message about variable subsetting, before any format is looked at. *)
Theorem unsupported_variable_subsetting_falls_back st op ctx configs :
  requiresVariableSubsetting op = true ->
  (exists c, In c configs /\ isCollectionMatch op c = true) ->
  (forall c, In c configs -> isCollectionMatch op c = true ->
             subsetting_variable c = false) ->
  forOperation st op ctx configs
  = fallback ("none of the services configured for the collection "
              +:+ "support variable subsetting") op.
Proof.
  intros Hreq (c & Hin & Hmatch) Hnone.
  unfold forOperation, forOperation_try, filterCollectionMatches.
  destruct (List.filter (isCollectionMatch op) configs) as [|c0 cm] eqn:Hcm.
  { assert (Hc : In c (List.filter (isCollectionMatch op) configs))
      by (apply filter_In; auto).
    rewrite Hcm in Hc. destruct Hc. }
  unfold filterVariableSubsettingMatches. rewrite Hreq.
  unfold supportsVariableSubsetting.
  rewrite (filter_none subsetting_variable (c0 :: cm)).
  - cbn [exn_class exn_message unsupported].
    now rewrite unsupportedCombinationMessage_other.
  - intros a Ha. rewrite <- Hcm in Ha. apply filter_In in Ha as [Ha Hm]. auto.
Qed.

(** X4.  An operation with no sources and no format asked for is matched by
    every configuration: [forOperation] selects the first configuration of
    the list, whatever its collections, and changes nothing. *)
Theorem no_sources_selects_first st op ctx c cs :
  sources op = [] ->
  formatRequested op ctx = false ->
  forOperation st op ctx (c :: cs)
  = (st, op, buildService st (Some (ConfigRef c)) op).
Proof.
  intros Hsrc Hreq.
  assert (Hcm : List.filter (isCollectionMatch op) (c :: cs) = c :: cs).
  { erewrite filter_ext; [apply filter_all|].
    intros a. unfold isCollectionMatch. now rewrite Hsrc. }
  assert (Hvar : requiresVariableSubsetting op = false)
    by (unfold requiresVariableSubsetting; now rewrite Hsrc).
  unfold forOperation, forOperation_try, filterCollectionMatches.
  rewrite Hcm. unfold filterVariableSubsettingMatches. rewrite Hvar.
  unfold filterOutputFormatMatches. fold (formatRequested op ctx). now rewrite Hreq.
Qed.

Lemma filterVariableSubsettingMatches_sources op op' ctx ctx' configs :
  sources op' = sources op ->
  filterVariableSubsettingMatches op' ctx' configs
  = filterVariableSubsettingMatches op ctx configs.
Proof.
  intros Hs. unfold filterVariableSubsettingMatches.
  now rewrite (requiresVariableSubsetting_sources _ _ Hs).
Qed.

(** The format stage, run again on the operation it left, does the same. *)
Lemma filterOutputFormatMatches_again op ctx configs :
  filterOutputFormatMatches (fst (filterOutputFormatMatches op ctx configs)) ctx configs
  = filterOutputFormatMatches op ctx configs.
Proof.
  pose proof (filterOutputFormatMatches_cases op ctx configs) as Hcases.
  destruct (filterOutputFormatMatches op ctx configs) as [op' r] eqn:Hfo.
  simpl in *.
  assert (Hset : forall f, f <> EmptyString ->
            filterOutputFormatMatches (set_outputFormat (Some f) op) ctx configs
            = (let services := selectServicesForFormat f configs in
               match services with
               | [] => (set_outputFormat (Some f) op,
                        formats ← requestedFormatsText (set_outputFormat (Some f) op) ctx;
                        Throw (unsupported (reformattingMessage formats)))
               | _ => (set_outputFormat (Some f) op, Ok services)
               end)).
  { intros f Hne. destruct f as [|a f]; [congruence|]. reflexivity. }
  inversion Hcases as [c cs Hreq Hcs|e Hreq Hcs|f c cs Hreq Hsel Hne Hsup
                       |f formats Hreq Hsel Hne Hsup Htext|r0 formats Hreq Hsel Hr Htext];
    subst; try exact Hfo.
  - rewrite (Hset f Hne), Hsup. reflexivity.
  - rewrite (Hset f Hne), Hsup. simpl. now rewrite Htext.
Qed.

(** The [try] block, run again on the operation it left, does the same. *)
Lemma forOperation_try_again op ctx configs :
  forOperation_try (fst (forOperation_try op ctx configs)) ctx configs
  = forOperation_try op ctx configs.
Proof.
  destruct (forOperation_try op ctx configs) as [op1 r1] eqn:Ht. simpl.
  revert Ht. unfold forOperation_try.
  destruct (filterCollectionMatches op ctx configs) as [cm|e] eqn:Hc.
  2:{ intros [= <- <-]. now rewrite Hc. }
  destruct (filterVariableSubsettingMatches op ctx cm) as [vm|e] eqn:Hv.
  2:{ intros [= <- <-]. now rewrite Hc, Hv. }
  pose proof (filterOutputFormatMatches_again op ctx vm) as Hagain.
  pose proof (filterOutputFormatMatches_cases op ctx vm) as Hcases.
  destruct (filterOutputFormatMatches op ctx vm) as [op' r] eqn:Hfo.
  simpl in Hagain, Hcases.
  destruct (FormatStage_operation _ _ _ _ _ Hcases) as [Hsrc _].
  destruct r as [fm|e]; intros [= <- <-];
    rewrite (filterCollectionMatches_sources op op' ctx ctx configs Hsrc), Hc,
      (filterVariableSubsettingMatches_sources op op' ctx ctx cm Hsrc), Hv, Hagain;
    reflexivity.
Qed.

(** X5.  [forOperation] is idempotent: called again with the operation and
    the module state that a first call left, it returns the same service and
    changes neither of them. *)
Theorem forOperation_idempotent st op ctx configs :
  let '(st', op', r) := forOperation st op ctx configs in
  forOperation st' op' ctx configs = (st', op', r).
Proof.
  pose proof (forOperation_try_again op ctx configs) as Hagain.
  destruct (forOperation_try op ctx configs) as [op1 [service|e1]] eqn:Ht;
    simpl in Hagain.
  - rewrite (forOperation_selected st _ _ _ _ _ Ht).
    apply (forOperation_selected st _ _ _ _ _ Hagain).
  - destruct (forOperation_fallback st _ _ _ _ _ Ht) as (diagnostic & Hd & ->).
    destruct (forOperation_fallback (MkModule (Some diagnostic)) _ _ _ _ _ Hagain)
      as (diagnostic' & Hd' & ->).
    rewrite Hd in Hd'. now injection Hd' as <-.
Qed.

Lemma Ok_inj {A} (a b : A) : Ok a = Ok b -> a = b.
Proof. now intros [= ->]. Qed.

Lemma selectFormat_loop_origin patterns configs (o : option string) f :
  truthy o = false ->
  selectFormat_loop patterns configs o = Some f -> f <> EmptyString ->
  exists pattern c,
    In pattern patterns /\ In c configs /\
    In f (output_formats c) /\ isMimeTypeAccepted f pattern = true.
Proof.
  intros Ho. induction patterns as [|pattern rest IH]; simpl.
  - intros -> Hne. now rewrite (truthy_nonempty f Hne) in Ho.
  - destruct (selectServicesForFormat pattern configs) as [|c0 l] eqn:Hsel.
    + rewrite Ho. intros Hloop Hne.
      destruct (IH Hloop Hne) as (p & c & Hp & Hrest). exists p, c. auto.
    + destruct (truthy (List.find _ (output_formats c0))) eqn:Ht.
      * intros Hfind _. apply find_some in Hfind as [Hf Hacc].
        exists pattern, c0. repeat split; auto.
        apply (selectServicesForFormat_In pattern configs c0).
        rewrite Hsel. now left.
      * assert (Hin : In c0 (selectServicesForFormat pattern configs))
          by (rewrite Hsel; now left).
        apply selectServicesForFormat_In in Hin as [_ Hsup].
        unfold supportsFormat in Hsup. congruence.
Qed.

(** X6.  When the operation comes without an output format and
    [forOperation] leaves one on it, that format is an output format that a
    configuration covering the collections of the operation declares, and
    one of the requested patterns accepts it: a pattern is never written
    onto the operation in place of a format. *)
Theorem resolved_format_is_declared st op ctx configs f :
  truthy (outputFormat op) = false ->
  outputFormat (snd (fst (forOperation st op ctx configs))) = Some f ->
  f <> EmptyString ->
  exists pattern patterns c,
    ctx = Some (MkContext (Some patterns)) /\ In pattern patterns /\
    In c configs /\ isCollectionMatch op c = true /\
    In f (output_formats c) /\ isMimeTypeAccepted f pattern = true.
Proof.
  intros Ho Hf Hne.
  assert (Hop' : snd (fst (forOperation st op ctx configs))
                 = fst (forOperation_try op ctx configs)).
  { destruct (forOperation_try op ctx configs) as [op1 [service|e1]] eqn:Ht.
    - now rewrite (forOperation_selected st _ _ _ _ _ Ht).
    - now destruct (forOperation_fallback st _ _ _ _ _ Ht) as (d & _ & ->). }
  rewrite Hop' in Hf. clear Hop'.
  pose proof (forOperation_try_cases op ctx configs) as Hcases.
  destruct (forOperation_try op ctx configs) as [op1 r1]. simpl in Hf, Hcases.
  assert (Hfalsy : outputFormat op <> Some f).
  { intros Heq. rewrite Heq, (truthy_nonempty f Hne) in Ho. discriminate. }
  assert (Hmain : forall cm vm r,
            filterCollectionMatches op ctx configs = Ok cm ->
            filterVariableSubsettingMatches op ctx cm = Ok vm ->
            FormatStage op ctx vm op1 r ->
            exists pattern patterns c,
              ctx = Some (MkContext (Some patterns)) /\ In pattern patterns /\
              In c configs /\ isCollectionMatch op c = true /\
              In f (output_formats c) /\ isMimeTypeAccepted f pattern = true).
  { intros cm vm r Hc Hv Hstage.
    pose proof (first_stages_filter _ _ _ _ _ Hc Hv) as Hvm.
    assert (Hsel : exists f', selectFormat op ctx vm = Ok (Some f')
                              /\ op1 = set_outputFormat (Some f') op).
    { inversion Hstage; subst; try congruence; eauto. }
    destruct Hsel as (f' & Hsel & ->). simpl in Hf. injection Hf as ->.
    unfold selectFormat in Hsel. rewrite Ho in Hsel.
    destruct ctx as [[mimeTypes]|]; [|discriminate].
    cbn [requestedMimeTypes] in Hsel.
    destruct mimeTypes as [[|m ms]|]; try congruence.
    apply Ok_inj in Hsel.
    destruct (selectFormat_loop_origin _ _ _ _ Ho Hsel Hne)
      as (pattern & c & Hp & Hin & Hdecl & Hacc).
    exists pattern, (m :: ms), c. rewrite Hvm in Hin.
    apply filter_In in Hin as [Hin Hel]. apply andb_prop in Hel as [Hcol _].
    repeat split; auto. }
  inversion Hcases as [| |cm vm op2 formats Hc Hv Hfo|cm vm op2 c cs Hc Hv Hfo Hstage];
    subst; try congruence.
  - apply (Hmain cm vm (Throw (unsupported (reformattingMessage formats))) Hc Hv).
    pose proof (filterOutputFormatMatches_cases op ctx vm) as Hst.
    now rewrite Hfo in Hst.
  - exact (Hmain cm vm _ Hc Hv Hstage).
Qed.

(** X7.  When [isCollectionSupported] is false for the collection of one of
    the sources of an operation, [forOperation] over the same configurations
    falls back to the no-op service with the message that no services are
    configured for the collection. *)
Theorem unsupported_collection_falls_back st op ctx configs src :
  In src (sources op) ->
  Loading.isCollectionSupported configs (collection src) = false ->
  forOperation st op ctx configs
  = fallback "no services are configured for the collection" op.
Proof.
  intros Hsrc Hsup. apply forOperation_collection_failure, filter_none.
  intros c Hin. unfold isCollectionMatch.
  apply not_true_is_false. intros Hall.
  pose proof (proj1 (forallb_forall _ _) Hall src Hsrc) as Hcovered.
  unfold Loading.isCollectionSupported in Hsup.
  destruct (List.find _ configs) eqn:Hfind; [discriminate|].
  pose proof (find_none _ _ Hfind c Hin) as Hno. simpl in Hno. congruence.
Qed.

(** X8.  For an operation with a single source, no variables and no format
    asked for, [forOperation] selects a configuration exactly when
    [isCollectionSupported] holds for the collection of the source, and the
    configuration is the first one that lists the collection. *)
Theorem supported_collection_is_routed st op ctx configs src :
  sources op = [src] ->
  requiresVariableSubsetting op = false ->
  formatRequested op ctx = false ->
  forOperation st op ctx configs
  = if Loading.isCollectionSupported configs (collection src)
    then (st, op,
          buildService st
            (ConfigRef <$> List.find (fun sc => existsb (String.eqb (collection src))
                                                        (collections sc)) configs) op)
    else fallback "no services are configured for the collection" op.
Proof.
  intros Hsrc Hvar Hreq.
  assert (Hfilter : List.filter (isCollectionMatch op) configs
                    = List.filter (fun sc => existsb (String.eqb (collection src))
                                                     (collections sc)) configs).
  { apply filter_ext. intros c. unfold isCollectionMatch. rewrite Hsrc. simpl.
    apply andb_true_r. }
  unfold Loading.isCollectionSupported. rewrite <- head_filter, <- Hfilter.
  destruct (List.filter (isCollectionMatch op) configs) as [|c cm] eqn:Hcm; simpl.
  - now apply forOperation_collection_failure.
  - unfold forOperation, forOperation_try, filterCollectionMatches. rewrite Hcm.
    unfold filterVariableSubsettingMatches. rewrite Hvar.
    unfold filterOutputFormatMatches. fold (formatRequested op ctx).
    now rewrite Hreq.
Qed.

(** X9.  A service that the document disables, with the boolean [false] or
    with the string [false], is never selected from the configurations that
    [loadServiceConfigs] keeps. *)
Theorem disabled_service_is_never_selected st op ctx document :
  let '(st', op', r) := forOperation st op ctx (Loading.loadServiceConfigs document) in
  forall s c, r = Ok s -> service_config s = ConfigRef c ->
    exists p, In p document /\ Loading.parsed p = c /\
              Loading.enabled p <> Loading.EnabledBoolean false /\
              Loading.enabled p <> Loading.EnabledString "false".
Proof.
  pose proof (forOperation_finds_eligible st op ctx (Loading.loadServiceConfigs document))
    as Hfirst.
  destruct (forOperation st op ctx (Loading.loadServiceConfigs document)) as [[st' op'] r].
  intros s c Hs Hcfg. specialize (Hfirst s c Hs Hcfg).
  apply find_some in Hfirst as [Hin _].
  unfold Loading.loadServiceConfigs in Hin.
  apply in_map_iff in Hin as (p & Hp & Hin).
  apply filter_In in Hin as [Hin Hen].
  exists p. repeat split; auto; intros Heq;
    unfold Loading.isEnabled in Hen; rewrite Heq in Hen; discriminate.
Qed.

End WithMimeNegotiation.

End RouterMore.

(** ** The [!Env] type *)

Module LoadingFacts.
Import Loading LoadingSpec.

Lemma append_assoc (a b c : string) : (a +:+ b) +:+ c = a +:+ (b +:+ c).
Proof.
  induction a as [|x a' IH]; [reflexivity|].
  change (String x ((a' +:+ b) +:+ c) = String x (a' +:+ b +:+ c)).
  now f_equal.
Qed.

Lemma append_nil_r (s : string) : s +:+ EmptyString = s.
Proof.
  induction s as [|x s' IH]; [reflexivity|].
  change (String x (s' +:+ EmptyString) = String x s'). now f_equal.
Qed.

(** Text with no dollar in it goes through the scan, and the scan goes on
    behind it. *)
Lemma replaceFrom_text env (pre rest : string) :
  hasNoDollar pre = true ->
  replaceFrom env InText (pre +:+ rest) = pre +:+ replaceFrom env InText rest.
Proof.
  unfold hasNoDollar. induction pre as [|c pre IH]; simpl; [reflexivity|].
  intros Hno. apply andb_prop in Hno as [Hc Hpre].
  apply negb_true_iff in Hc. rewrite Hc. now rewrite (IH Hpre).
Qed.

(** X10.  A scalar with no dollar in it is left as it is by the [!Env]
    type. *)
Theorem construct_plain_text env (data : string) :
  hasNoDollar data = true -> construct env data = data.
Proof.
  intros Hno. unfold construct.
  pose proof (replaceFrom_text env data EmptyString Hno) as Htext.
  rewrite !append_nil_r in Htext. exact Htext.
Qed.

(** Inside a placeholder: the word characters are taken into the name, and
    the close brace ends it. *)
Lemma replaceFrom_name env (name acc rest : string) :
  forallb isWordChar (list_ascii_of_string name) = true ->
  acc +:+ name <> EmptyString ->
  replaceFrom env (InName acc) (name +:+ "}" +:+ rest)
  = envValue env (acc +:+ name) +:+ replaceFrom env InText rest.
Proof.
  revert acc. induction name as [|c name IH]; intros acc Hword Hne.
  - rewrite append_nil_r in *. destruct acc as [|a acc]; [congruence|]. reflexivity.
  - simpl in Hword. apply andb_prop in Hword as [Hc Hword].
    change (String c name +:+ "}" +:+ rest) with (String c (name +:+ "}" +:+ rest)).
    cbn [replaceFrom]. rewrite Hc.
    rewrite (IH (acc +:+ String c EmptyString) Hword).
    + now rewrite append_assoc.
    + rewrite append_assoc. simpl. now destruct acc.
Qed.

(** X11.  A placeholder that follows text with no dollar in it is replaced
    by the value of its variable in the environment, or by nothing when the
    variable is not set; the text before it is kept and the scalar behind it
    is resolved in the same way. *)
Theorem construct_placeholder env (pre name post : string) :
  hasNoDollar pre = true ->
  isName name = true ->
  construct env (pre +:+ placeholder name +:+ post)
  = pre +:+ default EmptyString (env !! name) +:+ construct env post.
Proof.
  intros Hpre Hname. unfold construct, placeholder.
  rewrite (replaceFrom_text env pre _ Hpre). f_equal.
  assert (Hword : forallb isWordChar (list_ascii_of_string name) = true
                  /\ name <> EmptyString).
  { unfold isName in Hname. destruct name; [discriminate|]. split; [exact Hname | discriminate]. }
  destruct Hword as [Hword Hne].
  change (("${" +:+ name +:+ "}") +:+ post)
    with (String "$" (String "{" ((name +:+ "}") +:+ post))).
  cbn [replaceFrom]. 
  change (isDollar "$") with true. change (isOpenBrace "{") with true. cbn iota.
  rewrite append_assoc.
  now rewrite (replaceFrom_name env name EmptyString post Hword).
Qed.

End LoadingFacts.

(** ** The callback handler *)

Module CallbackMore.
Import JS JSFacts Job ServiceResponse CallbackSpec CallbackFacts CallbackMoreSpec.

Section WithRuntime.
Context `{JSRuntime}.

Implicit Types (job : Job) (q : CallbackQuery) (it : CallbackQueryItem)
  (req : Request) (w : World) (env : Collaborators).




(** The overrides of a staged body change neither the bounding box, nor the
    temporal range, nor the progress of the callback. *)
Lemma merge_staged_fieldsValid q (itemHref : string) (itemType st : option string) :
  fieldsValid
    (merge q {| item := Some {| href := Some itemHref; type := itemType; rel := None;
                                title := None; temporal := None; bbox := None |};
                error := None; redirect := None; status := st; progress := None |})
  = fieldsValid q.
Proof.
  unfold fieldsValid, merge. simpl.
  destruct (item q) as [it|]; simpl; reflexivity.
Qed.

(** Fields that do not pass validation: [updateJobFields] throws a
    validation error. *)
Lemma updateJobFields_invalid logger job q :
  fieldsValid q = false ->
  exists l job' msg,
    updateJobFields logger job q = (l, job', Throw (MkExn RequestValidationError msg)).
Proof.
  unfold fieldsValid, updateJobFields, updateJobFields_try. intros Hv.
  destruct (item q) as [it|]; simpl in Hv.
  - rewrite linkOfItem_expected. unfold itemValid in Hv.
    destruct (expected parsedBbox (bbox it)) as [bb|]; [|simpl; eauto].
    destruct (expected parsedTemporal (temporal it)) as [range|]; [|simpl; eauto].
    rewrite !bool_decide_eq_true_2 in Hv by eauto. simpl in Hv.
    destruct (ServiceResponse.progress q) as [[|c p]|]; simpl in Hv; try discriminate.
    apply negb_false_iff in Hv. rewrite Hv. simpl. eauto.
  - destruct (ServiceResponse.progress q) as [[|c p]|]; simpl in Hv; try discriminate.
    apply negb_false_iff in Hv. rewrite Hv. simpl. eauto.
Qed.

(** X13.  A file body is staged before the fields of the callback are
    validated, and a rollback does not undo it: when the fields do not pass
    validation, the handler answers 400 and leaves the persisted jobs as
    they were, and the uploaded file stays in the object store. *)
Theorem staged_body_survives_rollback env req w job link0 others filename :
  jobs w !! requestId req = Some job ->
  hasFileBody req = true ->
  getRelatedLinks job "s3-access" = link0 :: others ->
  bodyFilename req = Some filename -> filename <> EmptyString ->
  upload_error env (stagedUpload req (link_href link0) filename) = None ->
  fieldsValid (query req) = false ->
  let '(w', res) := responseHandler env req w in
  res_status res = Some 400%Z /\
  trx w' = TrxRolledBack /\
  jobs w' = jobs w /\
  objectStore w' = objectStore w ++ [stagedUpload req (link_href link0) filename].
Proof.
  intros Hjob Hbody Hlinks Hname Hne Hup Hinvalid.
  unfold responseHandler, byRequestId.
  change (jobs (transaction w)) with (jobs w). rewrite Hjob.
  unfold responseHandler_try, stageBody.
  rewrite Hbody, Hlinks, Hname.
  destruct filename as [|c f]; [congruence|].
  unfold stagedUpload in Hup. rewrite Hup.
  match goal with
  | |- context [updateJobFields ?l job ?q] =>
    destruct (updateJobFields_invalid l job q) as (l' & job' & msg & ->)
  end.
  - now rewrite merge_staged_fieldsValid.
  - destruct (isComplete job'); simpl; auto.
Qed.

Lemma linkOfItem_href it link :
  linkOfItem it = Ok link -> link_href link = href it /\ link_type link = type it.
Proof.
  rewrite linkOfItem_expected.
  destruct (expected parsedBbox (bbox it)); [|discriminate].
  destruct (expected parsedTemporal (temporal it)); [|discriminate].
  intros [= <-]. auto.
Qed.

(** When [updateJobFields] returns for fields with an item, the link of the
    item is among the links of the job. *)
Lemma updateJobFields_Ok_links logger job q it l' job' :
  item q = Some it ->
  updateJobFields logger job q = (l', job', Ok ()) ->
  exists link rest,
    linkOfItem it = Ok link /\ links job' = links job ++ link :: rest.
Proof.
  intros Hit Hupd.
  destruct (linkOfItem it) as [link|e] eqn:Hlink.
  - destruct (updateJobFields_try_links job q it link Hit Hlink) as [rest Hrest].
    rewrite <- updateJobFields_fst_snd with (logger := logger), Hupd in Hrest.
    eauto.
  - exfalso. revert Hupd. unfold updateJobFields, updateJobFields_try.
    rewrite Hit, Hlink. discriminate.
Qed.

(** X14.  Whenever the handler answers 200 to a callback with a file body,
    the body is in the object store under the staging location of the job
    followed by the file name, and the persisted job has a new link to that
    place. *)
Theorem acknowledged_body_is_staged_and_linked env req w job :
  jobs w !! requestId req = Some job ->
  hasFileBody req = true ->
  snd (responseHandler env req w) = okResponse ->
  exists link0 filename job' link rest,
    head (getRelatedLinks job "s3-access") = Some link0 /\
    bodyFilename req = Some filename /\
    objectStore (fst (responseHandler env req w))
    = objectStore w ++ [stagedUpload req (link_href link0) filename] /\
    jobs (fst (responseHandler env req w)) !! requestId req = Some job' /\
    links job' = links job ++ link :: rest /\
    link_href link = Some (upload_href (stagedUpload req (link_href link0) filename)).
Proof.
  intros Hjob Hbody.
  unfold responseHandler, byRequestId.
  change (jobs (transaction w)) with (jobs w). rewrite Hjob.
  unfold responseHandler_try, stageBody. rewrite Hbody.
  destruct (getRelatedLinks job "s3-access") as [|link0 others];
    [destruct (isComplete job); discriminate|].
  destruct (bodyFilename req) as [[|c f]|];
    try (destruct (isComplete job); discriminate).
  destruct (upload_error env _); [destruct (isComplete job); discriminate|].
  match goal with
  | |- context [updateJobFields ?l job ?q] =>
    pose proof (updateJobFields_Ok_links l job q) as Hlinks;
    destruct (updateJobFields l job q) as [[l' job1] [[]|e]] eqn:Hupd
  end.
  2:{ destruct (isComplete job1); discriminate. }
  destruct (save_error env job1); [destruct (isComplete job1); discriminate|].
  destruct (commit_error env); [destruct (isComplete job1); discriminate|].
  intros _.
  assert (Hitem : exists it,
            item (merge (query req)
                    {| item := Some {| href := Some (plus (link_href link0) (String c f));
                                       type := bodyItemType req; rel := None;
                                       title := None; temporal := None; bbox := None |};
                       error := None; redirect := None;
                       status := if isAsync job then None else Some "successful";
                       progress := None |}) = Some it
            /\ href it = Some (plus (link_href link0) (String c f))).
  { unfold merge. simpl. destruct (item (query req)); eexists; split; reflexivity. }
  destruct Hitem as (it & Hit & Hhref).
  destruct (Hlinks it l' job1 Hit eq_refl) as (link & rest & Hlink & Hrest).
  apply linkOfItem_href in Hlink as [Hlink _].
  exists link0, (String c f), job1, link, rest.
  assert (Hlookup : (<[requestId req := job1]> (∅ : gmap string Job) ∪ jobs w)
                      !! requestId req = Some job1).
  { apply lookup_union_Some_l. apply lookup_insert_eq. }
  destruct (isComplete job1); simpl; repeat split; auto; congruence.
Qed.

(** Case analysis on fields that pass validation: the link of the item is
    built and the progress is a number. *)
Ltac valid_fields Hv :=
  unfold fieldsValid in Hv; apply andb_prop in Hv as [?Hi ?Hp];
  unfold updateJobFields, updateJobFields_try;
  match goal with
  | |- context [item ?q] =>
    destruct (item q) as [?it|]; simpl in Hi;
    [ match goal with
      | Hi : itemValid ?it = true |- _ =>
        let link := fresh "link" in
        destruct (itemValid_linkOfItem it Hi) as [link ->]
      end
    | ];
    (destruct (ServiceResponse.progress q) as [[|?c ?p]|]; simpl in Hp;
     try (apply negb_true_iff in Hp; rewrite Hp))
  end.

Lemma updateJobFields_error logger job q e :
  fieldsValid q = true ->
  error q = Some e -> e <> EmptyString ->
  exists job',
    updateJobFields logger job q = (logger, job', Ok ()) /\
    Job.status job' = failed /\
    Job.message job' = Some e.
Proof.
  intros Hv He Hne. destruct e as [|c0 e]; [congruence|].
  valid_fields Hv; rewrite He; simpl; eexists; repeat split.
Qed.

(** X15.  An error reported by a callback wins over its status and its
    redirect: with fields that pass validation, the job ends up [failed]
    with the error as its message, whatever else the callback carries. *)
Theorem error_wins_over_status_and_redirect logger job q e :
  fieldsValid q = true ->
  error q = Some e -> e <> EmptyString ->
  exists job',
    updateJobFields logger job q = (logger, job', Ok ()) /\
    Job.status job' = failed /\
    Job.message job' = Some e.
Proof. exact (updateJobFields_error logger job q e). Qed.

(** X16.  A callback with a redirect and neither an error nor a status,
    whose fields pass validation: the job ends up [successful], and its
    last link is a link of relation [data] to the redirect, after the links
    it had and the link of the item, if the callback has one. *)
Theorem redirect_completes_job logger job q r :
  fieldsValid q = true ->
  truthy (error q) = false ->
  truthy (ServiceResponse.status q) = false ->
  redirect q = Some r -> r <> EmptyString ->
  exists job',
    updateJobFields logger job q = (logger, job', Ok ()) /\
    Job.status job' = successful /\
    links job' = links job ++ itemLinks q ++ [redirectLink r].
Proof.
  intros Hv He Hs Hr Hne. destruct r as [|c0 r]; [congruence|].
  unfold itemLinks.
  valid_fields Hv; rewrite Hr;
    destruct (error q) as [[|? ?]|]; try discriminate;
    destruct (ServiceResponse.status q) as [[|? ?]|]; try discriminate;
    simpl; eexists; repeat split; simpl; rewrite <- ?app_assoc; reflexivity.
Qed.

(** A callback that carries neither an error, nor a status, nor a redirect,
    with fields that pass validation: the status of the job stays. *)
Lemma updateJobFields_keeps_status logger job q :
  fieldsValid q = true ->
  truthy (error q) = false ->
  truthy (ServiceResponse.status q) = false ->
  truthy (redirect q) = false ->
  exists job',
    updateJobFields logger job q = (logger, job', Ok ()) /\
    Job.status job' = Job.status job /\
    links job' = links job ++ itemLinks q.
Proof.
  intros Hv He Hs Hr. unfold itemLinks.
  valid_fields Hv;
    destruct (error q) as [[|? ?]|]; try discriminate;
    destruct (ServiceResponse.status q) as [[|? ?]|]; try discriminate;
    destruct (redirect q) as [[|? ?]|]; try discriminate;
    simpl; eexists; repeat split; simpl; rewrite ?app_nil_r; reflexivity.
Qed.

(** X17.  A file body for an asynchronous job does not complete it: when the
    callback carries no status and no redirect, its fields pass validation
    and no collaborator fails, the handler answers 200, the status of the
    persisted job is the one it had, and the job has one more link, to the
    staged file. *)
Theorem asynchronous_file_body_keeps_status env req w job link0 others filename :
  jobs w !! requestId req = Some job ->
  isAsync job = true ->
  hasFileBody req = true ->
  getRelatedLinks job "s3-access" = link0 :: others ->
  bodyFilename req = Some filename -> filename <> EmptyString ->
  fieldsValid (query req) = true ->
  truthy (ServiceResponse.status (query req)) = false ->
  truthy (redirect (query req)) = false ->
  (forall u, upload_error env u = None) ->
  (forall j, save_error env j = None) ->
  commit_error env = None ->
  let '(w', res) := responseHandler env req w in
  res = okResponse /\
  exists job' link,
    jobs w' !! requestId req = Some job' /\
    Job.status job' = Job.status job /\
    links job' = links job ++ [link] /\
    link_href link = Some (plus (link_href link0) filename).
Proof.
  intros Hjob Hasync Hbody Hlinks Hname Hne Hvalid Hstatus Hredirect Hup Hsave Hcommit.
  unfold responseHandler, byRequestId.
  change (jobs (transaction w)) with (jobs w). rewrite Hjob.
  unfold responseHandler_try, stageBody.
  rewrite Hbody, Hlinks, Hname.
  destruct filename as [|c f]; [congruence|].
  rewrite Hup, Hasync.
  assert (Herr : truthy (error (query req)) = false).
  { unfold hasFileBody in Hbody.
    apply andb_prop in Hbody as [Hbody _]. apply andb_prop in Hbody as [Hbody _].
    apply andb_prop in Hbody as [_ Hbody]. now apply negb_true_iff in Hbody. }
  match goal with
  | |- context [updateJobFields ?l job ?q] =>
    destruct (updateJobFields_keeps_status l job q)
      as (job' & Hupd & Hst & Hl)
  end.
  - now rewrite merge_staged_fieldsValid.
  - unfold merge. simpl. now destruct (error (query req)).
  - unfold merge. simpl. now destruct (ServiceResponse.status (query req)).
  - unfold merge. simpl. now destruct (redirect (query req)).
  - rewrite Hupd, Hsave, Hcommit.
    assert (Hlookup : (<[requestId req := job']> (∅ : gmap string Job) ∪ jobs w)
                        !! requestId req = Some job').
    { apply lookup_union_Some_l. apply lookup_insert_eq. }
    assert (Hlink : exists link, links job' = links job ++ [link] /\
                      link_href link = Some (plus (link_href link0) (String c f))).
    { assert (Hm : fieldsValid
                     (merge (query req)
                        {| item := Some {| href := Some (plus (link_href link0) (String c f));
                                           type := bodyItemType req; rel := None;
                                           title := None; temporal := None; bbox := None |};
                           error := None; redirect := None; status := None;
                           progress := None |}) = true)
        by now rewrite merge_staged_fieldsValid.
      revert Hl Hm. unfold itemLinks, fieldsValid, merge. cbn [item].
      destruct (item (query req)) as [qi|]; cbn [from_option];
        intros Hl Hm; apply andb_prop in Hm as [Hm _];
        destruct (itemValid_linkOfItem _ Hm) as [link Hlink];
        rewrite Hlink in Hl; exists link; (split; [exact Hl|]);
        now apply linkOfItem_href in Hlink as [-> _]. }
    destruct Hlink as (link & Hl1 & Hl2).
    destruct (isComplete job'); simpl; (split; [reflexivity|]);
      exists job', link; auto.
Qed.

(** X18.  The completion record is written from the job as the handler
    holds it, not as it is persisted: when a callback reports an error and
    saving the job fails, the handler rolls back and the persisted jobs are
    those before, and yet the last entry of the log is the record of a
    completed job. *)
Theorem completion_is_logged_after_rollback env req w job e ex :
  jobs w !! requestId req = Some job ->
  hasFileBody req = false ->
  fieldsValid (query req) = true ->
  error (query req) = Some e -> e <> EmptyString ->
  (forall j, save_error env j = Some ex) ->
  let '(w', res) := responseHandler env req w in
  trx w' = TrxRolledBack /\
  jobs w' = jobs w /\
  exists numOutputs, last (logger w') = Some (LogComplete numOutputs).
Proof.
  intros Hjob Hbody Hvalid Herr Hne Hsave.
  unfold responseHandler, byRequestId.
  change (jobs (transaction w)) with (jobs w). rewrite Hjob.
  unfold responseHandler_try. rewrite Hbody.
  match goal with
  | |- context [updateJobFields ?l job ?q] =>
    destruct (updateJobFields_error l job q e)
      as (job' & Hupd & Hst & _)
  end.
  - unfold fieldsValid, merge, noOverrides in *. simpl.
    now destruct (item (query req)).
  - unfold merge. simpl. exact Herr.
  - exact Hne.
  - rewrite Hupd, Hsave.
    assert (Hcomplete : isComplete job' = true) by (unfold isComplete; now rewrite Hst).
    rewrite Hcomplete. simpl. repeat split.
    eexists. apply last_snoc.
Qed.

End WithRuntime.

End CallbackMore.

(** ** Strings of the callback handler *)

Module CallbackStrings.
Import JS JSFacts ServiceResponse CallbackMoreSpec LoadingFacts.

Lemma comma_char (c : ascii) : (nat_of_ascii c =? 44)%nat = true -> c = ","%char.
Proof.
  intros Hc. apply Nat.eqb_eq in Hc.
  rewrite <- (ascii_nat_embedding c), Hc. reflexivity.
Qed.

Lemma split_commas_cons (s : string) : exists part parts, split_commas s = part :: parts.
Proof.
  destruct s as [|c s]; simpl; [eauto|].
  destruct (nat_of_ascii c =? 44)%nat; [eauto|].
  destruct (split_commas s); eauto.
Qed.

(** Splitting on commas loses nothing: the parts joined by commas
    are the string again, there is one part more than there are commas, and
    no part holds a comma. *)
Lemma split_commas_join (s : string) :
  join_commas (split_commas s) = s /\
  length (split_commas s) = S (commas s) /\
  forallb hasNoComma (split_commas s) = true.
Proof.
  unfold join_commas, commas, hasNoComma.
  induction s as [|c s (IHjoin & IHlen & IHparts)]; [repeat split|].
  destruct (split_commas_cons s) as (part & parts & Hs).
  cbn [split_commas list_ascii_of_string List.filter].
  rewrite Hs in *.
  destruct (nat_of_ascii c =? 44)%nat eqn:Hc.
  - apply comma_char in Hc as ->. repeat split.
    + change (String.concat "," (EmptyString :: part :: parts))
        with (EmptyString +:+ "," +:+ String.concat "," (part :: parts)).
      rewrite IHjoin. reflexivity.
    + simpl in *. now rewrite IHlen.
    + exact IHparts.
  - repeat split.
    + rewrite <- IHjoin. destruct parts; reflexivity.
    + exact IHlen.
    + simpl in *. now rewrite Hc.
Qed.

Lemma prefix_split (a s : string) :
  String.prefix a s = true -> exists r, s = a +:+ r.
Proof.
  revert s. induction a as [|x a IH]; intros s.
  - intros _. now exists s.
  - destruct s as [|y s]; simpl; [discriminate|].
    destruct (ascii_dec x y) as [->|]; [|discriminate].
    intros Hp. destruct (IH s Hp) as [r ->]. now exists r.
Qed.

Lemma substring_append_skip (a r : string) (n : nat) :
  String.substring (String.length a) n (a +:+ r) = String.substring 0 n r.
Proof. induction a as [|x a IH]; [reflexivity | exact IH]. Qed.

Lemma substring_whole (r : string) (n : nat) :
  (String.length r <= n)%nat -> String.substring 0 n r = r.
Proof.
  revert n. induction r as [|x r IH]; intros n Hn.
  - now destruct n.
  - destruct n as [|n]; simpl in *; [inversion Hn|].
    rewrite IH; [reflexivity | now apply le_S_n].
Qed.

Lemma length_append (a r : string) :
  String.length (a +:+ r) = (String.length a + String.length r)%nat.
Proof.
  induction a as [|x a IH]; [reflexivity|].
  change (S (String.length (a +:+ r)) = S (String.length a + String.length r)).
  now rewrite IH.
Qed.

(** What [spanNoQuote] returns: the two pieces make up the string, the first
    holds no double quote, and the second is empty or starts with one. *)
Lemma spanNoQuote_spec (s run rest : string) :
  spanNoQuote s = (run, rest) ->
  s = run +:+ rest /\ hasNoQuote run = true /\
  (rest = EmptyString \/ exists post, rest = dquote +:+ post).
Proof.
  unfold hasNoQuote. revert run rest.
  induction s as [|c s IH]; intros run rest; simpl.
  - intros [= <- <-]. auto.
  - destruct (nat_of_ascii c =? 34)%nat eqn:Hc.
    + intros [= <- <-]. repeat split. right. exists s.
      apply Nat.eqb_eq in Hc.
      rewrite <- (ascii_nat_embedding c), Hc. reflexivity.
    + destruct (spanNoQuote s) as [run' rest'].
      destruct (IH run' rest' eq_refl) as (-> & Hrun & Hrest).
      intros [= <- <-]. simpl. rewrite Hc. auto.
Qed.

Lemma spanNoQuote_append (name post : string) :
  hasNoQuote name = true ->
  spanNoQuote (name +:+ dquote +:+ post) = (name, dquote +:+ post).
Proof.
  unfold hasNoQuote. induction name as [|c name IH]; [reflexivity|].
  simpl. intros Hq. apply andb_prop in Hq as [Hc Hq].
  apply negb_true_iff in Hc.
  change (String c name +:+ dquote +:+ post) with (String c (name +:+ dquote +:+ post)).
  cbn [spanNoQuote]. now rewrite Hc, (IH Hq).
Qed.

Lemma filenameAt_sound (s name : string) :
  filenameAt s = Some name ->
  name <> EmptyString /\ hasNoQuote name = true /\
  exists post, s = filenameKey +:+ name +:+ dquote +:+ post.
Proof.
  unfold filenameAt.
  destruct (String.prefix filenameKey s) eqn:Hp; [|discriminate].
  destruct (prefix_split _ _ Hp) as [r ->].
  rewrite substring_append_skip, substring_whole
    by (rewrite length_append; apply Nat.le_add_l).
  destruct (spanNoQuote r) as [run rest] eqn:Hspan.
  destruct (spanNoQuote_spec _ _ _ Hspan) as (-> & Hrun & Hrest).
  destruct run as [|c run]; [discriminate|].
  destruct rest as [|q rest]; [discriminate|].
  intros [= <-]. split; [discriminate|]. split; [exact Hrun|].
  destruct Hrest as [|[post ->]]; [discriminate|]. now exists post.
Qed.

Lemma filenameMatch_unfold (s : string) :
  filenameMatch s
  = match filenameAt s with
    | Some name => Some name
    | None => match s with
              | String _ s' => filenameMatch s'
              | EmptyString => None
              end
    end.
Proof. destruct s; reflexivity. Qed.

(** X19.  The file name that the handler reads from a content-disposition
    header is never empty and holds no double quote, and the header holds
    it between double quotes behind the key [filename=]. *)
Theorem filenameMatch_sound (header name : string) :
  filenameMatch header = Some name ->
  name <> EmptyString /\ hasNoQuote name = true /\
  exists pre post, header = pre +:+ filenameKey +:+ name +:+ dquote +:+ post.
Proof.
  induction header as [|c s IH]; rewrite filenameMatch_unfold.
  - destruct (filenameAt EmptyString) eqn:Hat; [|discriminate].
    intros [= ->]. destruct (filenameAt_sound _ _ Hat) as (Hne & Hq & post & Hs).
    repeat split; auto. now exists EmptyString, post.
  - destruct (filenameAt (String c s)) eqn:Hat.
    + intros [= ->]. destruct (filenameAt_sound _ _ Hat) as (Hne & Hq & post & Hs).
      repeat split; auto. now exists EmptyString, post.
    + intros Hm. destruct (IH Hm) as (Hne & Hq & pre & post & ->).
      repeat split; auto. now exists (String c pre), post.
Qed.

Lemma filenameAt_append (name post : string) :
  name <> EmptyString -> hasNoQuote name = true ->
  filenameAt (filenameKey +:+ name +:+ dquote +:+ post) = Some name.
Proof.
  intros Hne Hq. unfold filenameAt.
  rewrite prefix_append, substring_append_skip, substring_whole
    by (rewrite (length_append filenameKey); apply Nat.le_add_l).
  rewrite (spanNoQuote_append name post Hq).
  destruct name; [congruence | reflexivity].
Qed.

Lemma prefix_get (a t : string) (i : nat) (ch : ascii) :
  String.prefix a t = true -> String.get i a = Some ch -> String.get i t = Some ch.
Proof.
  revert t i. induction a as [|x a IH]; intros t i; [destruct i; discriminate|].
  destruct t as [|y t]; simpl; [discriminate|].
  destruct (ascii_dec x y) as [->|]; [|discriminate].
  intros Hp. destruct i as [|i]; [auto|]. now apply IH.
Qed.

(** Behind text with no double quote, the first double quote of the key is
    the ninth character behind the text. *)
Lemma no_quote_before_key (pre rest : string) (i : nat) :
  hasNoQuote pre = true ->
  (i < String.length pre + 9)%nat ->
  String.get i (pre +:+ filenameKey +:+ rest) <> Some (ascii_of_nat 34).
Proof.
  unfold hasNoQuote. revert i. induction pre as [|c pre IH]; intros i Hq Hi.
  - do 9 (destruct i as [|i]; [lazy; discriminate|]). simpl in Hi. lia.
  - simpl in Hq. apply andb_prop in Hq as [Hc Hq].
    change (String c pre +:+ filenameKey +:+ rest)
      with (String c (pre +:+ filenameKey +:+ rest)).
    destruct i as [|i]; simpl.
    + intros [= ->]. discriminate.
    + apply IH; [exact Hq | simpl in Hi; lia].
Qed.

Lemma filenameAt_behind_text (c : ascii) (pre rest : string) :
  hasNoQuote (String c pre) = true ->
  filenameAt (String c pre +:+ filenameKey +:+ rest) = None.
Proof.
  intros Hq. unfold filenameAt.
  destruct (String.prefix filenameKey _) eqn:Hp; [|reflexivity].
  exfalso.
  apply (no_quote_before_key (String c pre) rest 9 Hq); [simpl; lia|].
  now apply (prefix_get filenameKey _ 9 (ascii_of_nat 34) Hp).
Qed.

(** X20.  Round trip for the file name: from a header that holds, behind
    text with no double quote, the key [filename=] and a name between double
    quotes, the handler reads that name, provided the name is not empty and
    holds no double quote. *)
Theorem filenameMatch_reads_name (pre name post : string) :
  hasNoQuote pre = true ->
  name <> EmptyString -> hasNoQuote name = true ->
  filenameMatch (pre +:+ filenameKey +:+ name +:+ dquote +:+ post) = Some name.
Proof.
  intros Hpre Hne Hq. induction pre as [|c pre IH]; rewrite filenameMatch_unfold.
  - change (EmptyString +:+ filenameKey +:+ name +:+ dquote +:+ post)
      with (filenameKey +:+ name +:+ dquote +:+ post).
    now rewrite filenameAt_append.
  - rewrite (filenameAt_behind_text c pre _ Hpre).
    change (String c pre +:+ filenameKey +:+ name +:+ dquote +:+ post)
      with (String c (pre +:+ filenameKey +:+ name +:+ dquote +:+ post)).
    apply IH. unfold hasNoQuote in *. simpl in Hpre.
    now apply andb_prop in Hpre as [_ Hpre].
Qed.

End CallbackStrings.

(** ** The migration *)

Module MigrationFacts.
Import Migration MigrationSpec.

(** Renaming a column back gives the columns back. *)
Lemma renameColumn_inverse (a b : string) (columns columns' : list string) :
  renameColumn a b columns = Some columns' ->
  renameColumn b a columns' = Some columns.
Proof.
  unfold renameColumn.
  destruct (existsb (String.eqb a) columns) eqn:Ha; [|discriminate].
  destruct (existsb (String.eqb b) columns) eqn:Hb; [discriminate|].
  simpl. intros [= <-].
  apply existsb_exists in Ha as (x & Hx & Hax). apply String.eqb_eq in Hax as <-.
  assert (Hnb : forall c, In c columns -> String.eqb b c = false).
  { intros c Hc. apply not_true_is_false. intros Hbc.
    assert (Hex : existsb (String.eqb b) columns = true)
      by (apply existsb_exists; eauto).
    congruence. }
  assert (Hab : String.eqb b a = false) by now apply Hnb.
  assert (H1 : existsb (String.eqb b)
                 (map (fun c => if String.eqb c a then b else c) columns) = true).
  { apply existsb_exists. exists b. split; [|apply String.eqb_refl].
    apply in_map_iff. exists a. now rewrite String.eqb_refl. }
  assert (H2 : existsb (String.eqb a)
                 (map (fun c => if String.eqb c a then b else c) columns) = false).
  { apply not_true_is_false. intros Hex.
    apply existsb_exists in Hex as (y & Hy & Hay). apply String.eqb_eq in Hay as <-.
    apply in_map_iff in Hy as (c & Hc & _).
    destruct (String.eqb c a) eqn:Hca.
    - subst. now rewrite String.eqb_refl in Hab.
    - subst. now rewrite String.eqb_refl in Hca. }
  rewrite H1, H2. simpl. f_equal.
  rewrite map_map. rewrite <- (map_id columns) at 2.
  apply map_ext_in. intros c Hc.
  destruct (String.eqb c a) eqn:Hca.
  - rewrite String.eqb_refl. symmetry. now apply String.eqb_eq.
  - rewrite String.eqb_sym, (Hnb c Hc). reflexivity.
Qed.

Lemma renameColumns_inverse (a b a' b' : string) (columns columns' : list string) :
  (t ← renameColumn a b columns; renameColumn a' b' t) = Some columns' ->
  (t ← renameColumn b' a' columns'; renameColumn b a t) = Some columns.
Proof.
  destruct (renameColumn a b columns) as [t|] eqn:H1; simpl; [|discriminate].
  intros H2. rewrite (renameColumn_inverse _ _ _ _ H2). simpl.
  exact (renameColumn_inverse _ _ _ _ H1).
Qed.

Lemma existsb_rename (x a b : string) (columns : list string) :
  x <> a -> x <> b ->
  existsb (String.eqb x) (map (fun c => if String.eqb c a then b else c) columns)
  = existsb (String.eqb x) columns.
Proof.
  intros Hxa Hxb. induction columns as [|c columns IH]; [reflexivity|].
  simpl. rewrite IH. f_equal.
  destruct (String.eqb c a) eqn:Hca.
  - apply String.eqb_eq in Hca as ->.
    apply String.eqb_neq in Hxa, Hxb. now rewrite Hxa, Hxb.
  - reflexivity.
Qed.

(** Two renamings of columns with four different names commute. *)
Lemma renameColumn_comm (a b a' b' : string) (columns : list string) :
  a <> a' -> a <> b' -> b <> a' -> b <> b' ->
  (t ← renameColumn a b columns; renameColumn a' b' t)
  = (t ← renameColumn a' b' columns; renameColumn a b t).
Proof.
  intros H1 H2 H3 H4. unfold renameColumn.
  destruct (existsb (String.eqb a) columns && negb (existsb (String.eqb b) columns))
    eqn:Hab;
    destruct (existsb (String.eqb a') columns && negb (existsb (String.eqb b') columns))
      eqn:Hab'; simpl;
    rewrite ?existsb_rename by congruence; rewrite ?Hab, ?Hab'; try reflexivity.
  f_equal. rewrite !map_map. apply map_ext. intros c.
  assert (Hba' : String.eqb b a' = false) by now apply String.eqb_neq.
  assert (Hb'a : String.eqb b' a = false) by (apply String.eqb_neq; congruence).
  destruct (String.eqb c a) eqn:Hca.
  - assert (Hca' : String.eqb c a' = false).
    { apply String.eqb_eq in Hca as ->. now apply String.eqb_neq. }
    now rewrite Hba', Hca', Hca.
  - destruct (String.eqb c a') eqn:Hca'.
    + now rewrite Hb'a.
    + now rewrite Hca.
Qed.

(** The two renamings of a table of [up], undone in the order of [down]. *)
Lemma renameColumns_undone (a b a' b' : string) (columns columns' : list string) :
  a <> a' -> a <> b' -> b <> a' -> b <> b' ->
  (t ← renameColumn a b columns; renameColumn a' b' t) = Some columns' ->
  (t ← renameColumn b a columns'; renameColumn b' a' t) = Some columns.
Proof.
  intros H1 H2 H3 H4 Hup.
  rewrite renameColumn_comm by congruence.
  now apply renameColumns_inverse.
Qed.

(** X21.  [down] undoes [up]: on every schema that [up] migrates, [down]
    applied to the result succeeds and gives the schema back, with every
    table and every column where it was. *)
Theorem down_undoes_up (schema schema' : Schema) :
  up schema = Some schema' -> down schema' = Some schema.
Proof.
  unfold up, renameTable.
  destruct (schema !! "batch_granules") as [g|] eqn:Hg; [|discriminate].
  destruct (schema !! "batch_items") as [|] eqn:Hbi; [discriminate|].
  cbn [mbind option_bind]. unfold alterTable at 2.
  rewrite lookup_insert_eq. cbn [mbind option_bind].
  destruct (t ← renameColumn "granuleUrl" "stacItemUrl" g;
            renameColumn "granuleSize" "itemSize" t) as [g'|] eqn:Hg';
    [|discriminate].
  cbn [mbind option_bind]. unfold alterTable.
  rewrite insert_insert_eq.
  rewrite lookup_insert_ne, lookup_delete_ne by done.
  destruct (schema !! "work_items") as [wc|] eqn:Hw; [|discriminate].
  cbn [mbind option_bind].
  destruct (t ← renameColumn "totalGranulesSize" "totalItemsSize" wc;
            renameColumn "outputGranuleSizesJson" "outputItemSizesJson" t)
    as [wc'|] eqn:Hwc'; [|discriminate].
  cbn [mbind option_bind]. intros [= <-].
  unfold down, alterTable, renameTable.
  rewrite lookup_insert_ne, lookup_insert_eq by done. cbn [mbind option_bind].
  rewrite (renameColumns_undone "granuleUrl" "stacItemUrl" "granuleSize" "itemSize"
             g g') by (done || exact Hg').
  cbn [mbind option_bind].
  rewrite lookup_insert_eq.
  rewrite !lookup_insert_ne, lookup_delete_eq by done.
  cbn [mbind option_bind].
  rewrite lookup_insert_ne, lookup_delete_ne, lookup_insert_ne, lookup_insert_eq by done.
  cbn [mbind option_bind].
  rewrite (renameColumns_undone "totalGranulesSize" "totalItemsSize"
             "outputGranuleSizesJson" "outputItemSizesJson" wc wc')
    by (done || exact Hwc').
  cbn [mbind option_bind]. f_equal.
  apply map_eq. intros k.
  destruct (decide (k = "work_items")) as [->|Hkw];
    [now rewrite lookup_insert_eq|].
  rewrite lookup_insert_ne by done.
  destruct (decide (k = "batch_granules")) as [->|Hkg];
    [now rewrite lookup_insert_eq|].
  rewrite lookup_insert_ne by done.
  destruct (decide (k = "batch_items")) as [->|Hki];
    [now rewrite lookup_delete_eq|].
  now rewrite lookup_delete_ne, !lookup_insert_ne, lookup_delete_ne by done.
Qed.

(** X22.  [up] undoes [down]: on every schema that [down] reverts, [up]
    applied to the result succeeds and gives the schema back. *)
Theorem up_undoes_down (schema schema' : Schema) :
  down schema = Some schema' -> up schema' = Some schema.
Proof.
  unfold down, alterTable at 2.
  destruct (schema !! "batch_items") as [b|] eqn:Hb; [|discriminate].
  cbn [mbind option_bind].
  destruct (t ← renameColumn "stacItemUrl" "granuleUrl" b;
            renameColumn "itemSize" "granuleSize" t) as [b'|] eqn:Hb';
    [|discriminate].
  cbn [mbind option_bind]. unfold renameTable.
  rewrite lookup_insert_eq, lookup_insert_ne by done.
  destruct (schema !! "batch_granules") as [|] eqn:Hg; [discriminate|].
  cbn [mbind option_bind]. unfold alterTable.
  rewrite lookup_insert_ne, lookup_delete_ne, lookup_insert_ne by done.
  destruct (schema !! "work_items") as [wc|] eqn:Hw; [|discriminate].
  cbn [mbind option_bind].
  destruct (t ← renameColumn "totalItemsSize" "totalGranulesSize" wc;
            renameColumn "outputItemSizesJson" "outputGranuleSizesJson" t)
    as [wc'|] eqn:Hwc'; [|discriminate].
  cbn [mbind option_bind]. intros [= <-].
  unfold up, renameTable, alterTable.
  rewrite lookup_insert_ne, lookup_insert_eq by done.
  rewrite !lookup_insert_ne, lookup_delete_eq by done.
  cbn [mbind option_bind].
  rewrite lookup_insert_eq. cbn [mbind option_bind].
  rewrite (renameColumns_undone "stacItemUrl" "granuleUrl" "itemSize" "granuleSize"
             b b') by (done || exact Hb').
  cbn [mbind option_bind].
  rewrite lookup_insert_ne, lookup_insert_ne, lookup_delete_ne, lookup_insert_eq by done.
  cbn [mbind option_bind].
  rewrite (renameColumns_undone "totalItemsSize" "totalGranulesSize"
             "outputItemSizesJson" "outputGranuleSizesJson" wc wc')
    by (done || exact Hwc').
  cbn [mbind option_bind]. f_equal.
  apply map_eq. intros k.
  destruct (decide (k = "work_items")) as [->|Hkw];
    [now rewrite lookup_insert_eq|].
  rewrite lookup_insert_ne by done.
  destruct (decide (k = "batch_items")) as [->|Hki];
    [now rewrite lookup_insert_eq|].
  rewrite !lookup_insert_ne by done.
  destruct (decide (k = "batch_granules")) as [->|Hkg];
    [now rewrite lookup_delete_eq|].
  now rewrite lookup_delete_ne, !lookup_insert_ne, lookup_delete_ne, lookup_insert_ne
    by done.
Qed.

Lemma renameColumns_map (a b a' b' : string) (columns columns' : list string) :
  b <> a' ->
  (t ← renameColumn a b columns; renameColumn a' b' t) = Some columns' ->
  columns' = map (renamed a b a' b') columns.
Proof.
  intros Hba'. unfold renameColumn.
  destruct (existsb _ columns && _); simpl; [|discriminate].
  destruct (existsb _ _ && _); [|discriminate].
  intros [= <-]. rewrite map_map. apply map_ext. intros c. unfold renamed.
  destruct (String.eqb c a); [|reflexivity].
  apply String.eqb_neq in Hba'. now rewrite Hba'.
Qed.

(** X23.  What [up] does to a schema that it migrates: the table
    [batch_granules] is gone and [batch_items] holds its columns, in their
    places, under the new names; the columns of [work_items] are renamed in
    their places; every other table is as before. *)
Theorem up_renames_in_place (schema schema' : Schema) :
  up schema = Some schema' ->
  schema' !! "batch_granules" = None /\
  schema' !! "batch_items"
  = map (renamed "granuleUrl" "stacItemUrl" "granuleSize" "itemSize")
      <$> schema !! "batch_granules" /\
  schema' !! "work_items"
  = map (renamed "totalGranulesSize" "totalItemsSize"
           "outputGranuleSizesJson" "outputItemSizesJson")
      <$> schema !! "work_items" /\
  (forall table, table <> "batch_granules" -> table <> "batch_items" ->
                 table <> "work_items" -> schema' !! table = schema !! table).
Proof.
  unfold up, renameTable.
  destruct (schema !! "batch_granules") as [g|] eqn:Hg; [|discriminate].
  destruct (schema !! "batch_items") as [|] eqn:Hbi; [discriminate|].
  cbn [mbind option_bind]. unfold alterTable at 2.
  rewrite lookup_insert_eq. cbn [mbind option_bind].
  destruct (t ← renameColumn "granuleUrl" "stacItemUrl" g;
            renameColumn "granuleSize" "itemSize" t) as [g'|] eqn:Hg';
    [|discriminate].
  cbn [mbind option_bind]. unfold alterTable.
  rewrite insert_insert_eq.
  rewrite lookup_insert_ne, lookup_delete_ne by done.
  destruct (schema !! "work_items") as [wc|] eqn:Hw; [|discriminate].
  cbn [mbind option_bind].
  destruct (t ← renameColumn "totalGranulesSize" "totalItemsSize" wc;
            renameColumn "outputGranuleSizesJson" "outputItemSizesJson" t)
    as [wc'|] eqn:Hwc'; [|discriminate].
  cbn [mbind option_bind]. intros [= <-].
  apply renameColumns_map in Hg'; [|done]. apply renameColumns_map in Hwc'; [|done].
  subst. repeat split.
  - now rewrite !lookup_insert_ne, lookup_delete_eq by done.
  - now rewrite lookup_insert_ne, lookup_insert_eq by done.
  - now rewrite lookup_insert_eq.
  - intros table H1 H2 H3.
    now rewrite !lookup_insert_ne, lookup_delete_ne by done.
Qed.

End MigrationFacts.

(** * Instances of the further properties *)

Module RouterMoreExamples.
Import JS Router RouterSpec RouterMoreSpec RouterMore RouterSamples RouterMoreSamples.

#[local] Existing Instance Mime.wildcard.

(** X2, witness: no sample service lists the collection [C9]. *)
Lemma uncovered_collection_witness :
  (forall c, In c [tiffService; pngService] -> isCollectionMatch strayOperation c = false) /\
  forOperation initial strayOperation None [tiffService; pngService]
  = fallback "no services are configured for the collection" strayOperation.
Proof.
  assert (Hnone : forall c, In c [tiffService; pngService] ->
                            isCollectionMatch strayOperation c = false)
    by (intros c [<-|[<-|[]]]; reflexivity).
  split; [exact Hnone|].
  exact (uncovered_collection_falls_back initial strayOperation None
           [tiffService; pngService] Hnone).
Defined.

(** X3, witness: the two services that list [C1] cannot subset by
    variable. *)
Lemma unsupported_variable_subsetting_witness :
  requiresVariableSubsetting variableOperation = true /\
  (exists c, In c [pngService; tiffPngService] /\
             isCollectionMatch variableOperation c = true) /\
  (forall c, In c [pngService; tiffPngService] ->
             isCollectionMatch variableOperation c = true ->
             subsetting_variable c = false) /\
  forOperation initial variableOperation None [pngService; tiffPngService]
  = fallback ("none of the services configured for the collection "
              +:+ "support variable subsetting") variableOperation.
Proof.
  assert (Hsome : exists c, In c [pngService; tiffPngService] /\
                            isCollectionMatch variableOperation c = true)
    by (exists pngService; split; [now left | reflexivity]).
  assert (Hnone : forall c, In c [pngService; tiffPngService] ->
                            isCollectionMatch variableOperation c = true ->
                            subsetting_variable c = false)
    by (intros c [<-|[<-|[]]] _; reflexivity).
  do 3 (split; [first [reflexivity | assumption]|]).
  exact (unsupported_variable_subsetting_falls_back initial variableOperation None
           [pngService; tiffPngService] eq_refl Hsome Hnone).
Defined.

(** X4, witness: an operation with no sources is routed to the first
    service. *)
Lemma no_sources_witness :
  sources emptyOperation = [] /\
  formatRequested emptyOperation None = false /\
  forOperation initial emptyOperation None [tiffService; pngService]
  = (initial, emptyOperation,
     buildService initial (Some (ConfigRef tiffService)) emptyOperation).
Proof.
  do 2 (split; [reflexivity|]).
  exact (no_sources_selects_first initial emptyOperation None tiffService [pngService]
           eq_refl eq_refl).
Defined.

(** X6, witness: the pattern [image/*] is resolved to [image/png], which
    [pngService] declares. *)
Lemma resolved_format_witness :
  truthy (outputFormat plainOperation) = false /\
  outputFormat (snd (fst (forOperation initial plainOperation (requested ["image/*"])
                            [pngService; tiffService]))) = Some "image/png" /\
  "image/png" <> EmptyString /\
  exists pattern patterns c,
    requested ["image/*"] = Some (MkContext (Some patterns)) /\ In pattern patterns /\
    In c [pngService; tiffService] /\ isCollectionMatch plainOperation c = true /\
    In "image/png" (output_formats c) /\ isMimeTypeAccepted "image/png" pattern = true.
Proof.
  do 3 (split; [first [reflexivity | discriminate]|]).
  apply (resolved_format_is_declared initial plainOperation (requested ["image/*"])
           [pngService; tiffService] "image/png");
    first [reflexivity | discriminate].
Defined.

(** X7, witness: the collection [C9] is not supported. *)
Lemma unsupported_collection_witness :
  In (MkSource "C9" None) (sources strayOperation) /\
  Loading.isCollectionSupported [tiffService; pngService]
    (collection (MkSource "C9" None)) = false /\
  forOperation initial strayOperation None [tiffService; pngService]
  = fallback "no services are configured for the collection" strayOperation.
Proof.
  assert (Hin : In (MkSource "C9" None) (sources strayOperation)) by (now left).
  do 2 (split; [first [reflexivity | assumption]|]).
  exact (unsupported_collection_falls_back initial strayOperation None
           [tiffService; pngService] (MkSource "C9" None) Hin eq_refl).
Defined.

(** X8, witness: the collection [C1] is supported, and [tiffService] is the
    first service that lists it. *)
Lemma supported_collection_witness :
  sources plainOperation = [MkSource "C1" None] /\
  requiresVariableSubsetting plainOperation = false /\
  formatRequested plainOperation None = false /\
  forOperation initial plainOperation None [tiffService; pngService]
  = if Loading.isCollectionSupported [tiffService; pngService]
         (collection (MkSource "C1" None))
    then (initial, plainOperation,
          buildService initial
            (ConfigRef <$> List.find (fun sc => existsb (String.eqb (collection (MkSource "C1" None)))
                                                        (collections sc))
                             [tiffService; pngService]) plainOperation)
    else fallback "no services are configured for the collection" plainOperation.
Proof.
  do 3 (split; [reflexivity|]).
  exact (supported_collection_is_routed initial plainOperation None
           [tiffService; pngService] (MkSource "C1" None) eq_refl eq_refl eq_refl).
Defined.

End RouterMoreExamples.

Module LoadingExamples.
Import Loading LoadingSpec LoadingFacts LoadingSamples.

(** X10, witness: a scalar with no dollar. *)
Lemma construct_plain_text_witness :
  hasNoDollar "https://cmr.earthdata.nasa.gov" = true /\
  construct environment "https://cmr.earthdata.nasa.gov" = "https://cmr.earthdata.nasa.gov".
Proof.
  split; [reflexivity|].
  exact (construct_plain_text environment "https://cmr.earthdata.nasa.gov" eq_refl).
Defined.

(** X11, witness: a placeholder between two pieces of text. *)
Lemma construct_placeholder_witness :
  hasNoDollar "https://cmr." = true /\
  isName "CMR_ENV" = true /\
  construct environment ("https://cmr." +:+ placeholder "CMR_ENV" +:+ ".earthdata.nasa.gov")
  = "https://cmr." +:+ default EmptyString (environment !! "CMR_ENV")
    +:+ construct environment ".earthdata.nasa.gov".
Proof.
  do 2 (split; [reflexivity|]).
  exact (construct_placeholder environment "https://cmr." "CMR_ENV" ".earthdata.nasa.gov"
           eq_refl eq_refl).
Defined.

End LoadingExamples.

Module CallbackMoreExamples.
Import JS Job ServiceResponse CallbackSpec CallbackMoreSpec CallbackMore CallbackStrings.
Import CallbackSamples CallbackMoreSamples.

#[local] Existing Instance Reference.runtime.

(** X13, witness: a file body with a progress that is not a number. *)
Lemma staged_body_survives_rollback_witness :
  jobs world0 !! requestId invalidFileRequest = Some syncJob /\
  hasFileBody invalidFileRequest = true /\
  getRelatedLinks syncJob "s3-access" = [stagingLink] /\
  bodyFilename invalidFileRequest = Some "out.nc" /\
  "out.nc" <> EmptyString /\
  upload_error reliable (stagedUpload invalidFileRequest (link_href stagingLink) "out.nc")
  = None /\
  fieldsValid (query invalidFileRequest) = false /\
  let '(w', res) := responseHandler reliable invalidFileRequest world0 in
  res_status res = Some 400%Z /\
  trx w' = TrxRolledBack /\
  jobs w' = jobs world0 /\
  objectStore w'
  = objectStore world0 ++ [stagedUpload invalidFileRequest (link_href stagingLink) "out.nc"].
Proof.
  repeat (split; [first [reflexivity | discriminate]|]).
  apply (staged_body_survives_rollback reliable invalidFileRequest world0 syncJob
           stagingLink [] "out.nc");
    first [reflexivity | discriminate].
Defined.

(** X14, witness: the body of [fileRequest] is acknowledged. *)
Lemma acknowledged_body_witness :
  jobs world0 !! requestId fileRequest = Some syncJob /\
  hasFileBody fileRequest = true /\
  snd (responseHandler reliable fileRequest world0) = okResponse /\
  exists link0 filename job' link rest,
    head (getRelatedLinks syncJob "s3-access") = Some link0 /\
    bodyFilename fileRequest = Some filename /\
    objectStore (fst (responseHandler reliable fileRequest world0))
    = objectStore world0 ++ [stagedUpload fileRequest (link_href link0) filename] /\
    jobs (fst (responseHandler reliable fileRequest world0)) !! requestId fileRequest
    = Some job' /\
    links job' = links syncJob ++ link :: rest /\
    link_href link = Some (upload_href (stagedUpload fileRequest (link_href link0) filename)).
Proof.
  do 3 (split; [reflexivity|]).
  apply (acknowledged_body_is_staged_and_linked reliable fileRequest world0 syncJob);
    reflexivity.
Defined.

(** X15, witness: a callback with an error, a status and a redirect. *)
Lemma error_wins_witness :
  fieldsValid errorQuery = true /\
  error errorQuery = Some "out of memory" /\
  "out of memory" <> EmptyString /\
  exists job',
    updateJobFields [] syncJob errorQuery = ([], job', Ok ()) /\
    Job.status job' = failed /\
    Job.message job' = Some "out of memory".
Proof.
  do 3 (split; [first [reflexivity | discriminate]|]).
  apply (error_wins_over_status_and_redirect [] syncJob errorQuery "out of memory");
    first [reflexivity | discriminate].
Defined.

(** X16, witness: a callback with an item and a redirect. *)
Lemma redirect_completes_job_witness :
  fieldsValid redirectQuery = true /\
  truthy (error redirectQuery) = false /\
  truthy (ServiceResponse.status redirectQuery) = false /\
  redirect redirectQuery = Some "https://example.com/all.zip" /\
  "https://example.com/all.zip" <> EmptyString /\
  exists job',
    updateJobFields [] syncJob redirectQuery = ([], job', Ok ()) /\
    Job.status job' = successful /\
    links job' = links syncJob ++ itemLinks redirectQuery
                 ++ [redirectLink "https://example.com/all.zip"].
Proof.
  do 5 (split; [first [reflexivity | discriminate]|]).
  apply (redirect_completes_job [] syncJob redirectQuery "https://example.com/all.zip");
    first [reflexivity | discriminate].
Defined.

(** X17, witness: a file body for the asynchronous job of [req-3]. *)
Lemma asynchronous_file_body_witness :
  jobs world1 !! requestId asyncFileRequest = Some asyncJob /\
  isAsync asyncJob = true /\
  hasFileBody asyncFileRequest = true /\
  getRelatedLinks asyncJob "s3-access" = [stagingLink] /\
  bodyFilename asyncFileRequest = Some "out.nc" /\
  "out.nc" <> EmptyString /\
  fieldsValid (query asyncFileRequest) = true /\
  truthy (ServiceResponse.status (query asyncFileRequest)) = false /\
  truthy (redirect (query asyncFileRequest)) = false /\
  (forall u, upload_error reliable u = None) /\
  (forall j, save_error reliable j = None) /\
  commit_error reliable = None /\
  let '(w', res) := responseHandler reliable asyncFileRequest world1 in
  res = okResponse /\
  exists job' link,
    jobs w' !! requestId asyncFileRequest = Some job' /\
    Job.status job' = Job.status asyncJob /\
    links job' = links asyncJob ++ [link] /\
    link_href link = Some (plus (link_href stagingLink) "out.nc").
Proof.
  repeat (split; [first [reflexivity | discriminate]|]).
  apply (asynchronous_file_body_keeps_status reliable asyncFileRequest world1 asyncJob
           stagingLink [] "out.nc");
    first [reflexivity | discriminate].
Defined.

(** X18, witness: an error is reported and the job cannot be saved. *)
Lemma completion_is_logged_witness :
  jobs world0 !! requestId errorRequest = Some syncJob /\
  hasFileBody errorRequest = false /\
  fieldsValid (query errorRequest) = true /\
  error (query errorRequest) = Some "out of memory" /\
  "out of memory" <> EmptyString /\
  (forall j, save_error unsaved j = Some databaseDown) /\
  let '(w', res) := responseHandler unsaved errorRequest world0 in
  trx w' = TrxRolledBack /\
  jobs w' = jobs world0 /\
  exists numOutputs, last (logger w') = Some (LogComplete numOutputs).
Proof.
  repeat (split; [first [reflexivity | discriminate]|]).
  apply (completion_is_logged_after_rollback unsaved errorRequest world0 syncJob
           "out of memory" databaseDown);
    first [reflexivity | discriminate].
Defined.

(** X19, witness: the header [attachment] names the file [out.nc]. *)
Lemma filenameMatch_sound_witness :
  filenameMatch attachment = Some "out.nc" /\
  "out.nc" <> EmptyString /\ hasNoQuote "out.nc" = true /\
  exists pre post, attachment = pre +:+ filenameKey +:+ "out.nc" +:+ dquote +:+ post.
Proof.
  split; [reflexivity|].
  exact (filenameMatch_sound attachment "out.nc" eq_refl).
Defined.

(** X20, witness: a header with a parameter behind the file name. *)
Lemma filenameMatch_reads_name_witness :
  hasNoQuote "attachment; " = true /\
  "out.nc" <> EmptyString /\ hasNoQuote "out.nc" = true /\
  filenameMatch ("attachment; " +:+ filenameKey +:+ "out.nc" +:+ dquote +:+ "; size=1024")
  = Some "out.nc".
Proof.
  do 3 (split; [first [reflexivity | discriminate]|]).
  apply (filenameMatch_reads_name "attachment; " "out.nc" "; size=1024");
    first [reflexivity | discriminate].
Defined.

End CallbackMoreExamples.

Module MigrationExamples.
Import Migration MigrationSpec MigrationFacts MigrationSamples.

(** X21, witness: the sample schema is migrated and reverted. *)
Lemma down_undoes_up_witness :
  up before = Some after /\ down after = Some before.
Proof.
  split; [reflexivity|].
  apply (down_undoes_up before after). reflexivity.
Defined.

(** X22, witness: the migrated sample schema is reverted and migrated
    again. *)
Lemma up_undoes_down_witness :
  down after = Some before /\ up before = Some after.
Proof.
  split; [reflexivity|].
  apply (up_undoes_down after before). reflexivity.
Defined.

(** X23, witness: the columns of the sample schema are renamed where they
    are, and the table [jobs] is not touched. *)
Lemma up_renames_in_place_witness :
  up before = Some after /\
  after !! "batch_granules" = None /\
  after !! "batch_items"
  = map (renamed "granuleUrl" "stacItemUrl" "granuleSize" "itemSize")
      <$> before !! "batch_granules" /\
  after !! "work_items"
  = map (renamed "totalGranulesSize" "totalItemsSize"
           "outputGranuleSizesJson" "outputItemSizesJson")
      <$> before !! "work_items" /\
  (forall table, table <> "batch_granules" -> table <> "batch_items" ->
                 table <> "work_items" -> after !! table = before !! table).
Proof.
  split; [reflexivity|].
  apply (up_renames_in_place before after). reflexivity.
Defined.

End MigrationExamples.
